(** * Filter update scheduling and annoyances consent of the AdGuard browser extension

    A shallow embedding of
    [Extension/src/background/storages/annoyances-consent.ts], which holds
    - [AnnoyancesConsentStorage]   (module [ConsentStorage]),
    - the two [AnnoyancesConsentApi] classes: the one whose
      [consentedFilterIds] starts as an empty [Set] (module [ConsentEager])
      and the one where it starts as [null] (module [ConsentLazy]),
    - [FilterUpdateApi]            (module [FilterUpdate]).

    Numbers are the integers the code handles (filter identifiers and
    millisecond time stamps), modelled as [Z].  A JavaScript [Set] and [Map]
    iterate in insertion order, so they are lists without repeated keys. *)

From Stdlib Require Import ZArith Lia.
From stdpp Require Import gmap strings list.

Local Open Scope Z_scope.

(** ** Insertion ordered [Set<number>] *)

Module JsSet.

Definition t := list Z.

Definition empty : t := [].

Definition has (x : Z) (s : t) : bool := bool_decide (x ∈ s).

(** [Set.prototype.add]: a member keeps its place, a new value goes last. *)
Definition add (s : t) (x : Z) : t := if has x s then s else s ++ [x].

(** [xs.forEach((x) => s.add(x))] *)
Definition addAll (s : t) (xs : list Z) : t := foldl add s xs.

(** [new Set(xs)] *)
Definition ofArray (xs : list Z) : t := addAll empty xs.

Definition size (s : t) : nat := length s.

(** [Array.from(s)] *)
Definition toArray (s : t) : list Z := s.

End JsSet.

(** ** Insertion ordered [Map<number, V>] *)

Module JsMap.

Definition t (V : Type) := list (Z * V).

Definition empty {V} : t V := [].

Fixpoint get {V} (k : Z) (m : t V) : option V :=
  match m with
  | [] => None
  | (k', v) :: m' => if k =? k' then Some v else get k m'
  end.

Definition has {V} (k : Z) (m : t V) : bool :=
  match get k m with Some _ => true | None => false end.

(** [Map.prototype.set]: an existing key keeps its position and gets the
    new value, a new key is appended. *)
Fixpoint set {V} (k : Z) (v : V) (m : t V) : t V :=
  match m with
  | [] => [(k, v)]
  | (k', v') :: m' => if k =? k' then (k', v) :: m' else (k', v') :: set k v m'
  end.

(** [Array.from(m.values())] *)
Definition values {V} (m : t V) : list V := map snd m.

Definition keys {V} (m : t V) : list Z := map fst m.

End JsMap.

(** ** The filter update API *)

Module FilterUpdate.

(** A record of [filterVersionStorage]; [diffPath] is an optional field. *)
Record FilterVersion := {
  version : string;
  expires : Z;
  lastUpdateTime : Z;
  lastCheckTime : Z;
  diffPath : option string
}.

(** [FilterUpdateDetail] *)
Record FilterUpdateDetail := {
  filterId : Z;
  force : bool
}.

Definition FilterUpdateDetails := list FilterUpdateDetail.

(** What an update hands back for a filter ([FilterMetadata]). *)
Record FilterMetadata := {
  metaFilterId : Z;
  metaVersion : string;
  metaExpires : Z;
  metaTimeUpdated : Z;
  metaDiffPath : option string
}.

(** What one per-filter update meets at the remote side. *)
Inductive Remote :=
| RemoteFailure                       (* the task throws *)
| RemoteNothing                       (* the task resolves with [null] *)
| RemoteContent (m : FilterMetadata). (* the task resolves with metadata *)

(** The collaborators of [FilterUpdateApi] that live in other files:
    predicates of the custom and common filter APIs, two constants, the
    clock, the settings read by the cycle, the installed and enabled
    filters, and the outside world as seen by one update task. *)
Record Env := {
  isCustomFilter : Z -> bool;
  isCommonFilter : Z -> bool;
  DEFAULT_FILTERS_UPDATE_PERIOD : Z;
  FiltersUpdateTime_Disabled : Z;
  now : Z;
  settingDisableFiltering : bool;
  settingFiltersUpdatePeriod : Z;
  getInstalledAndEnabledFiltersIds : list Z;
  customRemote : FilterUpdateDetail -> Remote;
  commonRemote : FilterUpdateDetail -> Remote;
  loadMetadataThrows : bool;
  (* the order in which the tasks started by [updateFilters] complete *)
  completionOrder : FilterUpdateDetails -> FilterUpdateDetails
}.

(** The state the cycle works on: the data of [filterVersionStorage], and
    how often the metadata catalog was reloaded and the engine was told to
    rebuild. *)
Record World := {
  filterVersions : gmap Z FilterVersion;
  metadataLoads : nat;
  engineUpdates : nat
}.

Definition withVersions (w : World) (vs : gmap Z FilterVersion) : World :=
  {| filterVersions := vs;
     metadataLoads := metadataLoads w;
     engineUpdates := engineUpdates w |}.

Definition loadMetadataDone (w : World) : World :=
  {| filterVersions := filterVersions w;
     metadataLoads := S (metadataLoads w);
     engineUpdates := engineUpdates w |}.

Definition debounceUpdate (w : World) : World :=
  {| filterVersions := filterVersions w;
     metadataLoads := metadataLoads w;
     engineUpdates := S (engineUpdates w) |}.

(** [RECENTLY_CHECKED_FILTER_TIMEOUT_MS = 1000 * 60 * 5] *)
Definition RECENTLY_CHECKED_FILTER_TIMEOUT_MS : Z := 1000 * 60 * 5.

(** JavaScript truthiness of an optional string field. *)
Definition truthy (s : option string) : bool :=
  match s with
  | Some (String _ _) => true
  | _ => false
  end.

(** [selectFiltersIdsToUpdate] *)
Definition selectFiltersIdsToUpdate (E : Env) (filterVersions : gmap Z FilterVersion)
    (filterIds : list Z) : list Z :=
  List.filter (fun id =>
    let isCustom := isCustomFilter E id in
    let outdated :=
      match filterVersions !! id with
      | Some filterVersion =>
          now E - lastCheckTime filterVersion >? RECENTLY_CHECKED_FILTER_TIMEOUT_MS
      | None => true
      end in
    isCustom || outdated) filterIds.

(** [selectFiltersWithDiffPath] *)
Definition selectFiltersWithDiffPath (filterVersions : gmap Z FilterVersion)
    (filterUpdateDetails : FilterUpdateDetails) : FilterUpdateDetails :=
  map (fun filterData => {| filterId := filterId filterData; force := false |})
    (List.filter (fun filterData =>
       match filterVersions !! filterId filterData with
       | Some filterVersion => truthy (diffPath filterVersion)
       | None => false
       end) filterUpdateDetails).

(** The callback of the [filter] in [selectExpiredFilters]. *)
Definition isExpired (E : Env) (filterVersions : gmap Z FilterVersion)
    (updatePeriod : Z) (data : FilterUpdateDetail) : bool :=
  match filterVersions !! filterId data with
  | None => true
  | Some filterVersion =>
      if updatePeriod =? DEFAULT_FILTERS_UPDATE_PERIOD E
      then lastCheckTime filterVersion + expires filterVersion * 1000 <=? now E
      else lastCheckTime filterVersion + updatePeriod <=? now E
  end.

(** [selectExpiredFilters] *)
Definition selectExpiredFilters (E : Env) (filterVersions : gmap Z FilterVersion)
    (filterUpdateDetails : FilterUpdateDetails) (updatePeriod : Z) : FilterUpdateDetails :=
  map (fun filter => {| filterId := filterId filter; force := true |})
    (List.filter (isExpired E filterVersions updatePeriod) filterUpdateDetails).

(** The body of [combinedFilters.forEach] in [autoUpdateFilters]. *)
Definition uniqueStep (uniqueFiltersMap : JsMap.t FilterUpdateDetail)
    (filter : FilterUpdateDetail) : JsMap.t FilterUpdateDetail :=
  if negb (JsMap.has (filterId filter) uniqueFiltersMap) || force filter
  then JsMap.set (filterId filter) filter uniqueFiltersMap
  else uniqueFiltersMap.

(** The value of [filterUpdateDetailsToUpdate] when [autoUpdateFilters]
    reaches its call of [updateFilters]. *)
Definition filterUpdateDetailsToUpdate (E : Env) (filterVersions : gmap Z FilterVersion)
    (forceUpdate : bool) (updatePeriod : Z) : FilterUpdateDetails :=
  let installedAndEnabledFilters := getInstalledAndEnabledFiltersIds E in
  let all := map (fun id => {| filterId := id; force := forceUpdate |})
               installedAndEnabledFilters in
  if negb forceUpdate then
    let filtersWithDiffPath := selectFiltersWithDiffPath filterVersions all in
    let expiredFilters := selectExpiredFilters E filterVersions all updatePeriod in
    let combinedFilters := filtersWithDiffPath ++ expiredFilters in
    JsMap.values (foldl uniqueStep JsMap.empty combinedFilters)
  else all.

Definition setLastCheckTime (t : Z) (v : FilterVersion) : FilterVersion :=
  {| version := version v;
     expires := expires v;
     lastUpdateTime := lastUpdateTime v;
     lastCheckTime := t;
     diffPath := diffPath v |}.

(** Modelled from the spec: [filterVersionStorage.refreshLastCheckTime] is
    declared in another file.  The spec lists it in the Version Store
    interface as [refreshLastCheckTime(ids)] and says that it marks
    [lastCheckTime = now] for the given filters; the records of other
    filters, and the other fields, are not mentioned and stay as they are,
    and a filter without a record gets none. *)
Definition refreshLastCheckTime (E : Env) (filtersIds : list Z)
    (filterVersions : gmap Z FilterVersion) : gmap Z FilterVersion :=
  foldl (fun vs id => alter (setLastCheckTime (now E)) id vs) filterVersions filtersIds.

(** Modelled from the spec: [CustomFilterApi.updateFilter] and
    [CommonFilterApi.updateFilter] are declared in other files.  By the
    spec (Patch Executor) a task that succeeds commits the
    [FilterVersionRecord] parsed from the new content with
    [lastCheckTime = now] and returns the metadata; a task that fails
    commits nothing (no partial commit) and its error stays with the task.
    A task may also resolve with [null], the case [updateFilters] tests
    for; nothing is committed then either.  The result is [None] for a
    promise that rejects and [Some r] for one that resolves with [r]. *)
Definition commitUpdate (E : Env) (outcome : Remote) (filterData : FilterUpdateDetail)
    (filterVersions : gmap Z FilterVersion)
    : option (option FilterMetadata) * gmap Z FilterVersion :=
  match outcome with
  | RemoteFailure => (None, filterVersions)
  | RemoteNothing => (Some None, filterVersions)
  | RemoteContent m =>
      (Some (Some m),
       <[filterId filterData :=
           {| version := metaVersion m;
              expires := metaExpires m;
              lastUpdateTime := metaTimeUpdated m;
              lastCheckTime := now E;
              diffPath := metaDiffPath m |}]> filterVersions)
  end.

Definition CustomFilterApi_updateFilter (E : Env) (filterData : FilterUpdateDetail) :=
  commitUpdate E (customRemote E filterData) filterData.

Definition CommonFilterApi_updateFilter (E : Env) (filterData : FilterUpdateDetail) :=
  commitUpdate E (commonRemote E filterData) filterData.

(** One task of [updateTasks]: a rejected task pushes nothing, a task that
    resolves pushes its metadata when there is some. *)
Definition updateTask (E : Env)
    (acc : list FilterMetadata * gmap Z FilterVersion) (filterData : FilterUpdateDetail)
    : list FilterMetadata * gmap Z FilterVersion :=
  let '(updatedFiltersMetadata, filterVersions) := acc in
  let settled :=
    if isCustomFilter E (filterId filterData)
    then CustomFilterApi_updateFilter E filterData filterVersions
    else CommonFilterApi_updateFilter E filterData filterVersions in
  match settled with
  | (Some (Some filterMetadata), vs) => (updatedFiltersMetadata ++ [filterMetadata], vs)
  | (_, vs) => (updatedFiltersMetadata, vs)
  end.

(** The value of [shouldLoadMetadata] in [updateFilters]. *)
Definition shouldLoadMetadata (E : Env) (filterUpdateDetails : FilterUpdateDetails) : bool :=
  existsb (fun filterUpdateDetail =>
    force filterUpdateDetail && isCommonFilter E (filterId filterUpdateDetail))
    filterUpdateDetails.

(** [updateFilters]: [None] when the call itself rejects, which only the
    awaited [FiltersApi.loadMetadata] can cause.  The tasks run to
    completion in the order [completionOrder] gives ([Promise.allSettled]
    waits for all of them); each pushes to [updatedFiltersMetadata] when it
    completes. *)
Definition updateFilters (E : Env) (filterUpdateDetails : FilterUpdateDetails)
    (w : World) : option (list FilterMetadata * World) :=
  let shouldLoadMetadata := shouldLoadMetadata E filterUpdateDetails in
  if shouldLoadMetadata && loadMetadataThrows E then None
  else
    let w1 := if shouldLoadMetadata then loadMetadataDone w else w in
    let '(updatedFiltersMetadata, vs) :=
      foldl (updateTask E) ([], filterVersions w1)
        (completionOrder E filterUpdateDetails) in
    Some (updatedFiltersMetadata, withVersions w1 vs).

(** [checkForFiltersUpdates] *)
Definition checkForFiltersUpdates (E : Env) (filterIds : list Z) (w : World)
    : option (list FilterMetadata * World) :=
  let filtersToCheck := selectFiltersIdsToUpdate E (filterVersions w) filterIds in
  match updateFilters E
          (map (fun id => {| filterId := id; force := true |}) filtersToCheck) w with
  | None => None
  | Some (updatedFilters, w1) =>
      Some (updatedFilters,
            withVersions w1 (refreshLastCheckTime E filtersToCheck (filterVersions w1)))
  end.

(** [autoUpdateFilters] *)
Definition autoUpdateFilters (E : Env) (forceUpdate : bool) (w : World)
    : option (list FilterMetadata * World) :=
  let filteringDisabled := settingDisableFiltering E in
  if filteringDisabled && negb forceUpdate then Some ([], w)
  else
    let updatePeriod := settingFiltersUpdatePeriod E in
    if (updatePeriod =? FiltersUpdateTime_Disabled E) && negb forceUpdate then Some ([], w)
    else
      let details :=
        filterUpdateDetailsToUpdate E (filterVersions w) forceUpdate updatePeriod in
      match updateFilters E details w with
      | None => None
      | Some (updatedFilters, w1) =>
          let w2 :=
            withVersions w1
              (refreshLastCheckTime E (map filterId details) (filterVersions w1)) in
          let w3 := if (0 <? length updatedFilters)%nat then debounceUpdate w2 else w2 in
          Some (updatedFilters, w3)
      end.

(** *** Notions the statements below use *)

(** What the task of a detail meets at the remote side. *)
Definition remoteOf (E : Env) (d : FilterUpdateDetail) : Remote :=
  if isCustomFilter E (filterId d) then customRemote E d else commonRemote E d.

(** The metadata a task pushes; [None] for a task that pushes nothing. *)
Definition taskMetadata (E : Env) (d : FilterUpdateDetail) : option FilterMetadata :=
  match remoteOf E d with
  | RemoteContent m => Some m
  | _ => None
  end.

(** Keys of [uniqueFiltersMap] are distinct and every entry sits under the
    id of its own filter. *)
Definition keyed (m : JsMap.t FilterUpdateDetail) : Prop :=
  NoDup (JsMap.keys m) /\ forall k d, (k, d) ∈ m -> filterId d = k.

End FilterUpdate.

(** ** The consent storage *)

Module ConsentStorage.

(** What is kept under [ANNOYANCES_CONSENT_KEY]: no string at all, a string
    that [JSON.parse] or the validator rejects, or the text of an array of
    filter ids. *)
Inductive Stored :=
| NotAString
| BadString
| JsonArray (ids : list Z).

(** The storage object: the persisted value, the [data] field of
    [StringStorage] ([None] while it is not initialized), and the number of
    [read] calls so far. *)
Record t := {
  stored : Stored;
  data : option (list Z);
  reads : nat
}.

Inductive Error :=
| MkError (message : string).

(** [createNotInitializedError] *)
Definition createNotInitializedError : Error :=
  MkError "annoyances consent is not initialized".

(** The callback of [filterIds.forEach] in [addFilterIds]. *)
Definition pushIfMissing (data : list Z) (id : Z) : list Z :=
  if negb (bool_decide (id ∈ data)) then data ++ [id] else data.

(** [AnnoyancesConsentStorage.addFilterIds]; [inl] is the thrown error. *)
Definition addFilterIds (filterIds : list Z) (s : t) : Error + t :=
  match data s with
  | None => inl createNotInitializedError
  | Some _ =>
      let data1 := match data s with None => [] | Some d => d end in
      inr {| stored := stored s;
             data := Some (foldl pushIfMissing data1 filterIds);
             reads := reads s |}
  end.

(** Modelled from the spec: [StringStorage] is declared in another file;
    the spec names the raw key/value persistence as an external
    collaborator.  [read] hands back the persisted value. *)
Definition read (s : t) : Stored * t :=
  (stored s, {| stored := stored s; data := data s; reads := S (reads s) |}).

(** Modelled from the spec: [StringStorage.setCache] keeps the value in
    memory only. *)
Definition setCache (d : list Z) (s : t) : t :=
  {| stored := stored s; data := Some d; reads := reads s |}.

(** Modelled from the spec: [StringStorage.setData] keeps the value and
    flushes it to the storage with the call (write-through). *)
Definition setData (d : list Z) (s : t) : t :=
  {| stored := JsonArray d; data := Some d; reads := reads s |}.

(** [AnnoyancesConsentApi.getFromStorage], the same in both classes. *)
Definition getFromStorage (s : t) : list Z * t :=
  let '(storageData, s1) := read s in
  match storageData with
  | JsonArray ids => (ids, setCache ids s1)
  | NotAString => ([], setData [] s1)
  | BadString => ([], setData [] s1)
  end.

(** The ids [getFromStorage] finds in a persisted value. *)
Definition parsed (p : Stored) : list Z :=
  match p with
  | JsonArray ids => ids
  | NotAString | BadString => []
  end.

(** A storage that nothing was written to and nothing was read from. *)
Definition untouched : t := {| stored := NotAString; data := None; reads := 0 |}.

End ConsentStorage.

(** The calls a client of a consent API makes. *)
Inductive ConsentCall :=
| CallAddFilterIds (filterIds : list Z)
| CallIsConsentedFilter (id : Z).

(** ** [AnnoyancesConsentApi] with [consentedFilterIds = new Set()] *)

Module ConsentEager.

Record t := {
  consentedFilterIds : JsSet.t;
  storage : ConsentStorage.t
}.

(** [new AnnoyancesConsentApi()] over a given storage. *)
Definition create (s : ConsentStorage.t) : t :=
  {| consentedFilterIds := JsSet.empty; storage := s |}.

(** [reset] *)
Definition reset (a : t) : t :=
  {| consentedFilterIds := consentedFilterIds a;
     storage := ConsentStorage.setData [] (storage a) |}.

(** [addFilterIds] *)
Definition addFilterIds (filterIds : list Z) (a : t) : t :=
  let '(set1, s1) :=
    if (JsSet.size (consentedFilterIds a) =? 0)%nat then
      let '(fromStorage, s1) := ConsentStorage.getFromStorage (storage a) in
      (JsSet.addAll (consentedFilterIds a) fromStorage, s1)
    else (consentedFilterIds a, storage a) in
  let set2 := JsSet.addAll set1 filterIds in
  {| consentedFilterIds := set2;
     storage := ConsentStorage.setData (JsSet.toArray set2) s1 |}.

(** [isConsentedFilter] *)
Definition isConsentedFilter (id : Z) (a : t) : bool * t :=
  (JsSet.has id (consentedFilterIds a), a).

Definition call (a : t) (c : ConsentCall) : t :=
  match c with
  | CallAddFilterIds filterIds => addFilterIds filterIds a
  | CallIsConsentedFilter id => snd (isConsentedFilter id a)
  end.

(** The consented set as [addFilterIds] sees it: its own set, or what the
    storage holds while its own set is empty. *)
Definition consented (a : t) : JsSet.t :=
  if (JsSet.size (consentedFilterIds a) =? 0)%nat
  then JsSet.ofArray (ConsentStorage.parsed (ConsentStorage.stored (storage a)))
  else consentedFilterIds a.

End ConsentEager.

(** ** [AnnoyancesConsentApi] with [consentedFilterIds = null] *)

Module ConsentLazy.

Record t := {
  consentedFilterIds : option JsSet.t;
  storage : ConsentStorage.t
}.

(** [new AnnoyancesConsentApi()] over a given storage. *)
Definition create (s : ConsentStorage.t) : t :=
  {| consentedFilterIds := None; storage := s |}.

(** [restoreConsentedFilterIds] *)
Definition restoreConsentedFilterIds (a : t) : t :=
  let '(storedConsentedFilterIds, s1) := ConsentStorage.getFromStorage (storage a) in
  {| consentedFilterIds := Some (JsSet.ofArray storedConsentedFilterIds);
     storage := s1 |}.

(** [reset] *)
Definition reset (a : t) : t :=
  {| consentedFilterIds := consentedFilterIds a;
     storage := ConsentStorage.setData [] (storage a) |}.

(** [addFilterIds] *)
Definition addFilterIds (filterIds : list Z) (a : t) : t :=
  let a1 :=
    match consentedFilterIds a with
    | None => restoreConsentedFilterIds a
    | Some _ => a
    end in
  let set2 := option_map (fun s => JsSet.addAll s filterIds) (consentedFilterIds a1) in
  {| consentedFilterIds := set2;
     storage :=
       ConsentStorage.setData
         (match set2 with Some s => JsSet.toArray s | None => [] end) (storage a1) |}.

(** [isConsentedFilter] *)
Definition isConsentedFilter (id : Z) (a : t) : bool * t :=
  let a1 :=
    match consentedFilterIds a with
    | None => restoreConsentedFilterIds a
    | Some _ => a
    end in
  (match consentedFilterIds a1 with Some s => JsSet.has id s | None => false end, a1).

Definition call (a : t) (c : ConsentCall) : t :=
  match c with
  | CallAddFilterIds filterIds => addFilterIds filterIds a
  | CallIsConsentedFilter id => snd (isConsentedFilter id a)
  end.

(** The consented set: the materialized one, or what the storage holds
    while nothing is materialized. *)
Definition consented (a : t) : JsSet.t :=
  match consentedFilterIds a with
  | Some s => s
  | None => JsSet.ofArray (ConsentStorage.parsed (ConsentStorage.stored (storage a)))
  end.

End ConsentLazy.

(** ** A reading of the cycle that the code does not follow *)

Module AsStated.
Import FilterUpdate.

(** "After the cycle [lastCheckTime] is [now] for every filter that was a
    candidate, including those skipped by the recency filtering", for the
    cycle [checkForFiltersUpdates] runs. *)
Definition refreshesEveryCandidate (E : Env) (filterIds : list Z) (w : World) : Prop :=
  forall updated w' id v,
    checkForFiltersUpdates E filterIds w = Some (updated, w') ->
    id ∈ filterIds ->
    filterVersions w' !! id = Some v ->
    lastCheckTime v = now E.

End AsStated.

(** ** A concrete installation *)

Module Scenario.
Import FilterUpdate.

Definition clock : Z := 10000000.

Definition record (lastCheck : Z) (patches : option string) : FilterVersion :=
  {| version := "1.0.0.0";
     expires := 3600;
     lastUpdateTime := 0;
     lastCheckTime := lastCheck;
     diffPath := patches |}.

(** Filter 1 was checked 3700 s ago and has a patch feed, filter 2 was
    checked 3500 s ago, filter 3 four minutes ago, filter 4 six minutes
    ago, and the custom filter 1000 four minutes ago. *)
Definition versions : gmap Z FilterVersion :=
  <[1 := record (clock - 3700 * 1000) (Some "patches/1.patch")]>
    (<[2 := record (clock - 3500 * 1000) None]>
       (<[3 := record (clock - 4 * 60 * 1000) None]>
          (<[4 := record (clock - 6 * 60 * 1000) None]>
             (<[1000 := record (clock - 4 * 60 * 1000) None]> ∅)))).

Definition fresh (id : Z) : FilterMetadata :=
  {| metaFilterId := id;
     metaVersion := "2.0.0.0";
     metaExpires := 7200;
     metaTimeUpdated := clock - 1000;
     metaDiffPath := None |}.

(** Filters 1, 2 and 3 are installed and enabled; the update of filter 2
    fails, the others bring new content; tasks complete in the reverse of
    the order they were started in. *)
Definition env (disableFiltering : bool) (updatePeriod : Z) : Env :=
  {| isCustomFilter := fun id => 1000 <=? id;
     isCommonFilter := fun id => id <? 1000;
     DEFAULT_FILTERS_UPDATE_PERIOD := -1;
     FiltersUpdateTime_Disabled := 0;
     now := clock;
     settingDisableFiltering := disableFiltering;
     settingFiltersUpdatePeriod := updatePeriod;
     getInstalledAndEnabledFiltersIds := [1; 2; 3];
     customRemote := fun _ => RemoteNothing;
     commonRemote := fun d =>
       if filterId d =? 2 then RemoteFailure else RemoteContent (fresh (filterId d));
     loadMetadataThrows := false;
     completionOrder := reverse |}.

Definition world : World :=
  {| filterVersions := versions; metadataLoads := 0; engineUpdates := 0 |}.

(** The [lastCheckTime] of a filter after a cycle. *)
Definition lastCheckTimeAfter (r : option (list FilterMetadata * World)) (id : Z)
    : option Z :=
  match r with
  | Some (_, w) => lastCheckTime <$> filterVersions w !! id
  | None => None
  end.

End Scenario.

(** ** The same installation at another time *)

Module Later.
Import FilterUpdate.

(** The collaborators as they are when the clock reads [t]. *)
Definition atTime (E : Env) (t : Z) : Env :=
  {| isCustomFilter := isCustomFilter E;
     isCommonFilter := isCommonFilter E;
     DEFAULT_FILTERS_UPDATE_PERIOD := DEFAULT_FILTERS_UPDATE_PERIOD E;
     FiltersUpdateTime_Disabled := FiltersUpdateTime_Disabled E;
     now := t;
     settingDisableFiltering := settingDisableFiltering E;
     settingFiltersUpdatePeriod := settingFiltersUpdatePeriod E;
     getInstalledAndEnabledFiltersIds := getInstalledAndEnabledFiltersIds E;
     customRemote := customRemote E;
     commonRemote := commonRemote E;
     loadMetadataThrows := loadMetadataThrows E;
     completionOrder := completionOrder E |}.

End Later.

(** ** An installation where nothing is due *)

Module Quiet.
Import FilterUpdate.

(** As [Scenario.env] with the settings of the default period, but only
    filters 2 and 3 are installed and enabled: both have a version record,
    neither is expired, neither has a patch feed. *)
Definition env : Env :=
  {| isCustomFilter := fun id => 1000 <=? id;
     isCommonFilter := fun id => id <? 1000;
     DEFAULT_FILTERS_UPDATE_PERIOD := -1;
     FiltersUpdateTime_Disabled := 0;
     now := Scenario.clock;
     settingDisableFiltering := false;
     settingFiltersUpdatePeriod := -1;
     getInstalledAndEnabledFiltersIds := [2; 3];
     customRemote := fun _ => RemoteNothing;
     commonRemote := fun d => RemoteContent (Scenario.fresh (filterId d));
     loadMetadataThrows := true;
     completionOrder := reverse |}.

End Quiet.

(** ** Notions of the consent statements *)

Module ConsentNotions.

(** The set in memory is there and has no repeated id. *)
Definition materialized (a : ConsentLazy.t) : Prop :=
  exists set, ConsentLazy.consentedFilterIds a = Some set /\ NoDup set.

(** The two classes hold the same set, and it is what is persisted. *)
Definition agree (e : ConsentEager.t) (l : ConsentLazy.t) : Prop :=
  ConsentLazy.consentedFilterIds l = Some (ConsentEager.consentedFilterIds e)
  /\ ConsentStorage.stored (ConsentEager.storage e)
     = ConsentStorage.JsonArray (ConsentEager.consentedFilterIds e)
  /\ ConsentStorage.stored (ConsentLazy.storage l)
     = ConsentStorage.JsonArray (ConsentEager.consentedFilterIds e).

End ConsentNotions.

(** ** The patch update service *)

Module PatchUpdate.
Import FilterUpdate.

(** The line feed and the carriage return. *)
Definition LF : Ascii.ascii := Ascii.ascii_of_nat 10.
Definition CR : Ascii.ascii := Ascii.ascii_of_nat 13.

(** [lines.join('\n')] *)
Definition joinLines (lines : list string) : string :=
  String.concat (String LF EmptyString) lines.

(** A line as [split] cuts it off before a line feed: the separator
    [/\r?\n/] takes one carriage return before the line feed with it. *)
Fixpoint dropCR (line : string) : string :=
  match line with
  | EmptyString => EmptyString
  | String c EmptyString => if Ascii.eqb c CR then EmptyString else line
  | String c rest => String c (dropCR rest)
  end.

(** [text.split(/\r?\n/)], with the line read so far in [line]. *)
Fixpoint splitFrom (line : string) (text : string) : list string :=
  match text with
  | EmptyString => [line]
  | String c rest =>
      if Ascii.eqb c LF then dropCR line :: splitFrom EmptyString rest
      else splitFrom (line +:+ String c EmptyString) rest
  end.

Definition splitLines (text : string) : list string := splitFrom EmptyString text.

(** The fields of the parsed header that [tryToApplyPatch] reads. *)
Record Header := {
  headerVersion : string;
  headerExpires : string;
  headerTimeUpdated : string
}.

(** The collaborators of [FilterPatchUpdateService] that live in other
    files.  An awaited call that can reject gives [None] when it does;
    [customUrl] is [None] for a custom filter without metadata; [toNumber]
    and [dateGetTime] stand for [Number(expires)] and
    [new Date(timeUpdated).getTime()] on headers where these are
    integers. *)
Record Collaborators := {
  isCustom : Z -> bool;
  customUrl : Z -> option string;
  useOptimizedFilters : bool;
  getUrlForDownloadFilterRules : Z -> bool -> string;
  applyPatch : string -> string -> option string;
  rawSetRejects : Z -> bool;
  resolveDirectives : string -> list string -> option (list string);
  filtersSetRejects : Z -> bool;
  parseFilterDataFromHeader : list string -> option Header;
  toNumber : string -> Z;
  dateGetTime : string -> Z;
  dateNow : Z;
  installedAndEnabledFiltersIds : list Z
}.

(** What the service works on: [FiltersStorage], [RawFiltersStorage],
    [filterVersionStorage], the number of [Engine.debounceUpdate] calls and
    the number of errors written to the log or the console. *)
Record Stores := {
  filters : gmap Z (list string);
  rawFilters : gmap Z (list string);
  versions : gmap Z FilterVersion;
  debounced : nat;
  logged : nat
}.

(** [Log.error(...)] and [console.error(e)] *)
Definition logError (s : Stores) : Stores :=
  {| filters := filters s; rawFilters := rawFilters s; versions := versions s;
     debounced := debounced s; logged := S (logged s) |}.

(** [RawFiltersStorage.set(filterId, lines)] *)
Definition setRaw (filterId : Z) (lines : list string) (s : Stores) : Stores :=
  {| filters := filters s; rawFilters := <[filterId := lines]> (rawFilters s);
     versions := versions s; debounced := debounced s; logged := logged s |}.

(** [FiltersStorage.set(filterId, lines)] *)
Definition setFilter (filterId : Z) (lines : list string) (s : Stores) : Stores :=
  {| filters := <[filterId := lines]> (filters s); rawFilters := rawFilters s;
     versions := versions s; debounced := debounced s; logged := logged s |}.

(** [filterVersionStorage.set(filterId, record)] *)
Definition setVersion (filterId : Z) (v : FilterVersion) (s : Stores) : Stores :=
  {| filters := filters s; rawFilters := rawFilters s;
     versions := <[filterId := v]> (versions s);
     debounced := debounced s; logged := logged s |}.

(** [Engine.debounceUpdate()] *)
Definition debounce (s : Stores) : Stores :=
  {| filters := filters s; rawFilters := rawFilters s; versions := versions s;
     debounced := S (debounced s); logged := logged s |}.

(** The record [tryToApplyPatch] writes: the object literal has no
    [diffPath]. *)
Definition versionOf (C : Collaborators) (h : Header) : FilterVersion :=
  {| version := headerVersion h;
     expires := toNumber C (headerExpires h);
     lastUpdateTime := dateGetTime C (headerTimeUpdated h);
     lastCheckTime := dateNow C;
     diffPath := None |}.

(** The part of [tryToApplyPatch] after the url is known, inside [try]. *)
Definition patchWith (C : Collaborators) (filterId : Z) (url : string)
    (filterContent : list string) (s : Stores) : Stores :=
  match applyPatch C url (joinLines filterContent) with
  | None => logError s
  | Some updatedFilter =>
      if rawSetRejects C filterId then logError s
      else
        let s1 := setRaw filterId (splitLines updatedFilter) s in
        match resolveDirectives C url (splitLines updatedFilter) with
        | None => logError s1
        | Some filterWithAppliedDirectives =>
            if filtersSetRejects C filterId then logError s1
            else
              let s2 := setFilter filterId filterWithAppliedDirectives s1 in
              match parseFilterDataFromHeader C filterWithAppliedDirectives with
              | None => logError s2
              | Some filterMetadata =>
                  debounce (setVersion filterId (versionOf C filterMetadata) s2)
              end
        end
  end.

(** [tryToApplyPatch]: [None] when the promise rejects, which only the read
    before the [try] can cause; a filter that has no stored content is one
    whose read rejects. *)
Definition tryToApplyPatch (C : Collaborators) (filterId : Z) (s : Stores)
    : option Stores :=
  match filters s !! filterId with
  | None => None
  | Some filterContent =>
      if isCustom C filterId then
        match customUrl C filterId with
        | None => Some (logError s)
        | Some url => Some (patchWith C filterId url filterContent s)
        end
      else
        let isOptimized := useOptimizedFilters C in
        let url := getUrlForDownloadFilterRules C filterId isOptimized in
        Some (patchWith C filterId url filterContent s)
  end.

(** [update]: every task runs, one after the other here; the flag says
    whether [Promise.all] resolves, that is whether no task rejected. *)
Definition update (C : Collaborators) (s : Stores) : bool * Stores :=
  foldl (fun '(resolved, st) filterId =>
           match tryToApplyPatch C filterId st with
           | None => (false, st)
           | Some st' => (resolved, st')
           end)
    (true, s) (installedAndEnabledFiltersIds C).

(** One task of [update], as its fold runs it. *)
Definition runTask (C : Collaborators) (acc : bool * Stores) (filterId : Z)
    : bool * Stores :=
  let '(resolved, st) := acc in
  match tryToApplyPatch C filterId st with
  | None => (false, st)
  | Some st' => (resolved, st')
  end.

(** The url [tryToApplyPatch] patches from: the [customUrl] of a custom
    filter's metadata, [None] when there is no metadata, and the download
    url of any other filter. *)
Definition urlFor (C : Collaborators) (filterId : Z) : option string :=
  if isCustom C filterId then customUrl C filterId
  else Some (getUrlForDownloadFilterRules C filterId (useOptimizedFilters C)).

(** No line feed in the line. *)
Fixpoint noLineFeed (line : string) : bool :=
  match line with
  | EmptyString => true
  | String c rest => negb (Ascii.eqb c LF) && noLineFeed rest
  end.

(** The line ends with a carriage return. *)
Fixpoint endsWithCR (line : string) : bool :=
  match line with
  | EmptyString => false
  | String c EmptyString => Ascii.eqb c CR
  | String c rest => endsWithCR rest
  end.

End PatchUpdate.

(** ** A patch that meets a list without a header *)

Module PatchScenario.
Import FilterUpdate PatchUpdate.

(** Filter 1 is patched to a list with a header, filter 2 to a list
    without one; the custom filter 1000 has no metadata, the custom filter
    1001 has; no patch can be had for the custom filters. *)
Definition collaborators : Collaborators :=
  {| isCustom := fun id => 1000 <=? id;
     customUrl := fun id => if id =? 1001 then Some "https://example.org/list.txt" else None;
     useOptimizedFilters := false;
     getUrlForDownloadFilterRules := fun id _ => "https://filters.example.org/list.txt";
     applyPatch := fun url content =>
       if String.eqb url "https://filters.example.org/list.txt"
       then Some (content +:+ String LF "! patched") else None;
     rawSetRejects := fun _ => false;
     resolveDirectives := fun _ lines => Some lines;
     filtersSetRejects := fun _ => false;
     parseFilterDataFromHeader := fun lines =>
       match lines with
       | "! Version: 2" :: _ =>
           Some {| headerVersion := "2"; headerExpires := "3600";
                   headerTimeUpdated := "2024-01-01" |}
       | _ => None
       end;
     toNumber := fun _ => 3600;
     dateGetTime := fun _ => 5000000;
     dateNow := 10000000;
     installedAndEnabledFiltersIds := [1; 2; 1000] |}.

Definition stores : Stores :=
  {| filters := <[1 := ["! Version: 2"; "||ads.example^"]]>
                  (<[2 := ["||tracker.example^"]]>
                     (<[1000 := ["||custom.example^"]]> ∅));
     rawFilters := ∅;
     versions := <[1 := Scenario.record 0 (Some "patches/1.patch")]> ∅;
     debounced := 0;
     logged := 0 |}.

End PatchScenario.

(** * Properties *)

(** ** Lists *)

Lemma elem_of_List_filter {A} (f : A -> bool) (l : list A) (x : A) :
  x ∈ List.filter f l <-> x ∈ l /\ f x = true.
Proof. rewrite !list_elem_of_In. apply filter_In. Qed.

(** Membership in a list that is written out. *)
Ltac in_list := apply list_elem_of_In; simpl; tauto.

Section FilterUpdateSelection.
Import FilterUpdate.
Context (E : Env) (vs : gmap Z FilterVersion).

Lemma isExpired_filterId updatePeriod d d' :
  filterId d = filterId d' ->
  isExpired E vs updatePeriod d = isExpired E vs updatePeriod d'.
Proof. unfold isExpired. intros ->. reflexivity. Qed.

Lemma selectExpiredFilters_ids details updatePeriod :
  map filterId (selectExpiredFilters E vs details updatePeriod)
  = map filterId (List.filter (isExpired E vs updatePeriod) details).
Proof. unfold selectExpiredFilters. rewrite map_map. reflexivity. Qed.

Lemma selectExpiredFilters_force details updatePeriod d :
  d ∈ selectExpiredFilters E vs details updatePeriod -> force d = true.
Proof.
  unfold selectExpiredFilters. rewrite list_elem_of_fmap.
  intros (d0 & -> & _). reflexivity.
Qed.

Lemma selectExpiredFilters_selected details updatePeriod id :
  id ∈ map filterId (selectExpiredFilters E vs details updatePeriod)
  <-> id ∈ map filterId details
      /\ isExpired E vs updatePeriod {| filterId := id; force := true |} = true.
Proof.
  rewrite selectExpiredFilters_ids, !list_elem_of_fmap. split.
  - intros (d & -> & Hd). apply elem_of_List_filter in Hd as [Hin Hex].
    split; [exists d; auto |].
    rewrite <- Hex. apply isExpired_filterId. reflexivity.
  - intros [(d & -> & Hin) Hex]. exists d. split; [reflexivity |].
    apply elem_of_List_filter. split; [assumption |].
    rewrite <- Hex. apply isExpired_filterId. reflexivity.
Qed.

(** C1. For a filter that has a version record and is among the details
    handed to [selectExpiredFilters]: with the update period equal to
    [DEFAULT_FILTERS_UPDATE_PERIOD] it is selected iff
    [lastCheckTime + expires * 1000 <= now], with any other period iff
    [lastCheckTime + updatePeriod <= now]; and every selected detail
    carries [force = true]. *)
Theorem selectExpiredFilters_staleness details updatePeriod id v :
  vs !! id = Some v ->
  id ∈ map filterId details ->
  (updatePeriod = DEFAULT_FILTERS_UPDATE_PERIOD E ->
     (id ∈ map filterId (selectExpiredFilters E vs details updatePeriod)
      <-> lastCheckTime v + expires v * 1000 <= now E))
  /\ (updatePeriod <> DEFAULT_FILTERS_UPDATE_PERIOD E ->
     (id ∈ map filterId (selectExpiredFilters E vs details updatePeriod)
      <-> lastCheckTime v + updatePeriod <= now E))
  /\ (forall d, d ∈ selectExpiredFilters E vs details updatePeriod -> force d = true).
Proof.
  intros Hv Hin.
  assert (Hsel : id ∈ map filterId (selectExpiredFilters E vs details updatePeriod)
                 <-> (if updatePeriod =? DEFAULT_FILTERS_UPDATE_PERIOD E
                      then lastCheckTime v + expires v * 1000 <=? now E
                      else lastCheckTime v + updatePeriod <=? now E) = true).
  { rewrite selectExpiredFilters_selected. unfold isExpired. simpl. rewrite Hv.
    tauto. }
  split; [| split].
  - intros ->. rewrite Hsel, Z.eqb_refl. apply Z.leb_le.
  - intros Hne. rewrite Hsel.
    destruct (Z.eqb_spec updatePeriod (DEFAULT_FILTERS_UPDATE_PERIOD E)); [done |].
    apply Z.leb_le.
  - intros d. apply selectExpiredFilters_force.
Qed.

End FilterUpdateSelection.

Section FilterUpdateRecency.
Import FilterUpdate.
Context (E : Env) (vs : gmap Z FilterVersion).

Lemma selectFiltersIdsToUpdate_elem filterIds id :
  id ∈ selectFiltersIdsToUpdate E vs filterIds
  <-> id ∈ filterIds
      /\ (isCustomFilter E id = true
          \/ forall v, vs !! id = Some v ->
               now E - lastCheckTime v > RECENTLY_CHECKED_FILTER_TIMEOUT_MS).
Proof.
  unfold selectFiltersIdsToUpdate. rewrite elem_of_List_filter.
  rewrite orb_true_iff. destruct (vs !! id) as [v |] eqn:Hv.
  - rewrite Z.gtb_gt. split.
    + intros [Hin [Hc | Ho]]; split; auto.
      right. intros v' [= <-]. exact Ho.
    + intros [Hin [Hc | Ho]]; split; auto.
  - split.
    + intros [Hin _]. split; [assumption |]. right. intros v' [=].
    + intros [Hin _]. auto.
Qed.

(** C4. [selectFiltersIdsToUpdate] keeps a filter id of its input iff the
    filter is custom or its [lastCheckTime] is more than the recency
    window back; the window is five minutes.  So a custom filter is always
    kept, a filter that is not custom and was checked four minutes ago is
    dropped, and one checked six minutes ago is kept. *)
Theorem selectFiltersIdsToUpdate_recency filterIds id :
  id ∈ filterIds ->
  (id ∈ selectFiltersIdsToUpdate E vs filterIds
   <-> isCustomFilter E id = true
       \/ forall v, vs !! id = Some v ->
            now E - lastCheckTime v > RECENTLY_CHECKED_FILTER_TIMEOUT_MS)
  /\ RECENTLY_CHECKED_FILTER_TIMEOUT_MS = 5 * 60 * 1000
  /\ (isCustomFilter E id = true -> id ∈ selectFiltersIdsToUpdate E vs filterIds)
  /\ (forall v, isCustomFilter E id = false -> vs !! id = Some v ->
        lastCheckTime v = now E - 4 * 60 * 1000 ->
        id ∉ selectFiltersIdsToUpdate E vs filterIds)
  /\ (forall v, isCustomFilter E id = false -> vs !! id = Some v ->
        lastCheckTime v = now E - 6 * 60 * 1000 ->
        id ∈ selectFiltersIdsToUpdate E vs filterIds).
Proof.
  intros Hin. split; [| split; [| split; [| split]]].
  - rewrite selectFiltersIdsToUpdate_elem. tauto.
  - reflexivity.
  - intros Hc. apply selectFiltersIdsToUpdate_elem. auto.
  - intros v Hc Hv Ht. rewrite selectFiltersIdsToUpdate_elem.
    intros [_ [Hc' | Ho]]; [congruence |].
    specialize (Ho v Hv). unfold RECENTLY_CHECKED_FILTER_TIMEOUT_MS in Ho. lia.
  - intros v Hc Hv Ht. apply selectFiltersIdsToUpdate_elem.
    split; [assumption |]. right. intros v' Hv'.
    assert (v' = v) as -> by congruence.
    unfold RECENTLY_CHECKED_FILTER_TIMEOUT_MS. lia.
Qed.

End FilterUpdateRecency.

(** ** The insertion ordered map *)

Section JsMapFacts.
Context {V : Type}.
Implicit Types (m : JsMap.t V) (k : Z) (v : V).

Lemma JsMap_get_set_eq m k v : JsMap.get k (JsMap.set k v m) = Some v.
Proof.
  induction m as [| [k' v'] m IH]; simpl.
  - rewrite Z.eqb_refl. reflexivity.
  - destruct (Z.eqb_spec k k') as [-> | Hne]; simpl.
    + rewrite Z.eqb_refl. reflexivity.
    + destruct (Z.eqb_spec k k'); [contradiction | exact IH].
Qed.

Lemma JsMap_get_set_ne m k k' v :
  k <> k' -> JsMap.get k' (JsMap.set k v m) = JsMap.get k' m.
Proof.
  intros Hne. induction m as [| [k0 v0] m IH]; simpl.
  - destruct (Z.eqb_spec k' k); [congruence | reflexivity].
  - destruct (Z.eqb_spec k k0) as [-> | Hk]; simpl.
    + destruct (Z.eqb_spec k' k0); [congruence | reflexivity].
    + rewrite IH. reflexivity.
Qed.

Lemma JsMap_get_None m k : JsMap.get k m = None <-> k ∉ JsMap.keys m.
Proof.
  induction m as [| [k' v'] m IH]; simpl.
  - split; [intros _; apply not_elem_of_nil | reflexivity].
  - rewrite not_elem_of_cons. destruct (Z.eqb_spec k k') as [-> | Hne].
    + split; [discriminate | intros [H _]; contradiction].
    + rewrite IH. tauto.
Qed.

Lemma JsMap_get_elem m k v : JsMap.get k m = Some v -> (k, v) ∈ m.
Proof.
  induction m as [| [k' v'] m IH]; simpl; [discriminate |].
  destruct (Z.eqb_spec k k') as [-> | Hne].
  - intros [= ->]. apply list_elem_of_here.
  - intros H. apply list_elem_of_further, IH, H.
Qed.

Lemma JsMap_keys_set m k v :
  JsMap.keys (JsMap.set k v m)
  = if JsMap.has k m then JsMap.keys m else JsMap.keys m ++ [k].
Proof.
  unfold JsMap.has. induction m as [| [k' v'] m IH]; simpl; [reflexivity |].
  destruct (Z.eqb_spec k k') as [-> | Hne]; simpl; [reflexivity |].
  rewrite IH. destruct (JsMap.get k m); reflexivity.
Qed.

Lemma JsMap_set_elem m k v k' v' :
  (k', v') ∈ JsMap.set k v m -> (k', v') = (k, v) \/ (k', v') ∈ m.
Proof.
  induction m as [| [k0 v0] m IH]; simpl.
  - intros H. apply list_elem_of_singleton in H. auto.
  - destruct (Z.eqb_spec k k0) as [-> | Hne]; rewrite !elem_of_cons.
    + intros [H | H]; auto.
    + intros [H | H]; [auto |]. destruct (IH H); auto.
Qed.

Lemma JsMap_set_NoDup m k v :
  NoDup (JsMap.keys m) -> NoDup (JsMap.keys (JsMap.set k v m)).
Proof.
  intros Hnd. rewrite JsMap_keys_set. unfold JsMap.has.
  destruct (JsMap.get k m) eqn:Hg; [assumption |].
  apply NoDup_app. split; [assumption |]. split.
  - intros x Hx Hx'. apply list_elem_of_singleton in Hx'. subst x.
    apply JsMap_get_None in Hg. contradiction.
  - apply NoDup_singleton.
Qed.

End JsMapFacts.

(** ** Merging the patch path with the expired filters *)

Section FilterUpdateMerge.
Import FilterUpdate.

Lemma keyed_empty : keyed JsMap.empty.
Proof.
  split; [apply NoDup_nil_2 |]. intros k d H. apply elem_of_nil in H. contradiction.
Qed.

Lemma uniqueStep_keyed m d : keyed m -> keyed (uniqueStep m d).
Proof.
  intros [Hnd Hk]. unfold uniqueStep.
  destruct (negb (JsMap.has (filterId d) m) || force d); [| split; assumption].
  split; [apply JsMap_set_NoDup, Hnd |].
  intros k d' H. apply JsMap_set_elem in H as [[= -> ->] | H]; [reflexivity |].
  apply Hk, H.
Qed.

Lemma foldl_uniqueStep_keyed l m : keyed m -> keyed (foldl uniqueStep m l).
Proof.
  revert m. induction l as [| d l IH]; intros m Hm; simpl; [assumption |].
  apply IH, uniqueStep_keyed, Hm.
Qed.

Lemma uniqueStep_forced_get m d id :
  force d = true ->
  JsMap.get id (uniqueStep m d)
  = if filterId d =? id then Some {| filterId := id; force := true |}
    else JsMap.get id m.
Proof.
  intros Hf. unfold uniqueStep. rewrite Hf, orb_true_r.
  destruct (Z.eqb_spec (filterId d) id) as [<- | Hne].
  - rewrite JsMap_get_set_eq. destruct d; simpl in *. subst. reflexivity.
  - apply JsMap_get_set_ne, Hne.
Qed.

Lemma foldl_uniqueStep_forced l : forall m id,
  (forall d, d ∈ l -> force d = true) ->
  JsMap.get id m = Some {| filterId := id; force := true |} \/ id ∈ map filterId l ->
  JsMap.get id (foldl uniqueStep m l) = Some {| filterId := id; force := true |}.
Proof.
  induction l as [| d l IH]; intros m id Hall Hor; simpl.
  - destruct Hor as [H | H]; [assumption |]. apply elem_of_nil in H. contradiction.
  - apply IH.
    + intros d' Hd'. apply Hall. apply list_elem_of_further, Hd'.
    + rewrite uniqueStep_forced_get by (apply Hall, list_elem_of_here).
      destruct (Z.eqb_spec (filterId d) id) as [Heq | Hne]; [left; reflexivity |].
      destruct Hor as [H | H]; [left; assumption |].
      simpl in H. apply elem_of_cons in H as [H | H]; [congruence | right; assumption].
Qed.

Lemma keyed_values_filter m id d :
  keyed m -> JsMap.get id m = Some d ->
  List.filter (fun x => filterId x =? id) (JsMap.values m) = [d].
Proof.
  induction m as [| [k d0] m IH]; intros [Hnd Hk] Hg; simpl in *; [discriminate |].
  apply NoDup_cons in Hnd as [Hnotin Hnd].
  assert (Hd0 : filterId d0 = k) by (apply Hk, list_elem_of_here).
  assert (Hm : keyed m).
  { split; [assumption |]. intros k' d' H. apply Hk, list_elem_of_further, H. }
  rewrite Hd0. destruct (Z.eqb_spec id k) as [-> | Hne].
  - injection Hg as ->. rewrite Z.eqb_refl. f_equal.
    apply JsMap_get_None in Hnotin.
    clear IH Hk Hd0. induction m as [| [k' d'] m IHm]; simpl in *; [reflexivity |].
    destruct Hm as [Hnd' Hk']. apply NoDup_cons in Hnd as [_ Hnd].
    assert (Hd' : filterId d' = k') by (apply Hk', list_elem_of_here).
    rewrite Hd'. destruct (Z.eqb_spec k k') as [-> | Hkk]; [discriminate |].
    destruct (Z.eqb_spec k' k); [congruence |].
    apply IHm; try assumption.
    apply NoDup_cons in Hnd' as [_ Hnd']. split; [assumption |].
    intros k0 d0 H. apply Hk', list_elem_of_further, H.
  - destruct (Z.eqb_spec k id); [congruence |]. apply IH; assumption.
Qed.

Lemma keyed_values_unique m d d' :
  keyed m -> d ∈ JsMap.values m -> d' ∈ JsMap.values m ->
  filterId d = filterId d' -> d = d'.
Proof.
  intros Hm Hd Hd' Heq.
  assert (Hget : forall x, x ∈ JsMap.values m -> exists y, JsMap.get (filterId x) m = Some y).
  { intros x Hx. destruct (JsMap.get (filterId x) m) eqn:Hg; [eauto |].
    apply JsMap_get_None in Hg. exfalso. apply Hg.
    unfold JsMap.values in Hx. apply list_elem_of_fmap in Hx as ([k y] & -> & Hin).
    simpl. destruct Hm as [_ Hk]. rewrite (Hk _ _ Hin).
    unfold JsMap.keys. apply list_elem_of_fmap. exists (k, y). auto. }
  destruct (Hget d Hd) as [y Hy].
  pose proof (keyed_values_filter m (filterId d) y Hm Hy) as Hf.
  assert (H1 : d ∈ List.filter (fun x => filterId x =? filterId d) (JsMap.values m)).
  { apply elem_of_List_filter. split; [assumption | apply Z.eqb_refl]. }
  assert (H2 : d' ∈ List.filter (fun x => filterId x =? filterId d) (JsMap.values m)).
  { apply elem_of_List_filter. split; [assumption |]. rewrite Heq. apply Z.eqb_refl. }
  rewrite Hf in H1, H2. apply list_elem_of_singleton in H1, H2. congruence.
Qed.

End FilterUpdateMerge.

Section FilterUpdateTasks.
Import FilterUpdate.
Context (E : Env) (vs : gmap Z FilterVersion).

Lemma selectFiltersWithDiffPath_elem details id :
  {| filterId := id; force := false |} ∈ selectFiltersWithDiffPath vs details
  <-> id ∈ map filterId details
      /\ exists v, vs !! id = Some v /\ truthy (diffPath v) = true.
Proof.
  unfold selectFiltersWithDiffPath. rewrite !list_elem_of_fmap. split.
  - intros (d & [= ->] & Hd). apply elem_of_List_filter in Hd as [Hin Hp].
    split; [exists d; auto |].
    destruct (vs !! filterId d) as [v |]; [eauto | discriminate].
  - intros [(d & -> & Hin) (v & Hv & Ht)]. exists d. split; [reflexivity |].
    apply elem_of_List_filter. split; [assumption |]. rewrite Hv. exact Ht.
Qed.

Lemma selectExpiredFilters_elem details updatePeriod id :
  {| filterId := id; force := true |} ∈ selectExpiredFilters E vs details updatePeriod
  <-> id ∈ map filterId (selectExpiredFilters E vs details updatePeriod).
Proof.
  rewrite (list_elem_of_fmap filterId). split.
  - intros H. eexists. split; [| exact H]. reflexivity.
  - intros (d & -> & Hd). pose proof (selectExpiredFilters_force _ _ _ _ _ Hd).
    destruct d; simpl in *; subst. assumption.
Qed.

Lemma filterUpdateDetailsToUpdate_unique forceUpdate updatePeriod d d' :
  d ∈ filterUpdateDetailsToUpdate E vs forceUpdate updatePeriod ->
  d' ∈ filterUpdateDetailsToUpdate E vs forceUpdate updatePeriod ->
  filterId d = filterId d' -> d = d'.
Proof.
  unfold filterUpdateDetailsToUpdate. destruct forceUpdate; simpl.
  - rewrite !list_elem_of_fmap. intros (i & -> & _) (i' & -> & _). simpl. congruence.
  - apply keyed_values_unique, foldl_uniqueStep_keyed, keyed_empty.
Qed.

(** C3. In a cycle that is not forced, take an installed and enabled
    filter whose version record has a [diffPath] and which is expired.  It
    is in the patch path selection with [force = false] and in the expired
    selection with [force = true], and the merged list handed to
    [updateFilters] has exactly one task for it, with [force = true]. *)
Theorem merged_task_is_forced updatePeriod id v :
  id ∈ getInstalledAndEnabledFiltersIds E ->
  vs !! id = Some v ->
  truthy (diffPath v) = true ->
  isExpired E vs updatePeriod {| filterId := id; force := false |} = true ->
  let all := map (fun i => {| filterId := i; force := false |})
               (getInstalledAndEnabledFiltersIds E) in
  {| filterId := id; force := false |} ∈ selectFiltersWithDiffPath vs all
  /\ {| filterId := id; force := true |} ∈ selectExpiredFilters E vs all updatePeriod
  /\ List.filter (fun d => filterId d =? id)
       (filterUpdateDetailsToUpdate E vs false updatePeriod)
     = [ {| filterId := id; force := true |} ].
Proof.
  intros Hin Hv Hdiff Hexp all.
  assert (Hall : id ∈ map filterId all).
  { unfold all. rewrite map_map. simpl. rewrite map_id. exact Hin. }
  assert (Hsel : {| filterId := id; force := true |}
                   ∈ selectExpiredFilters E vs all updatePeriod).
  { apply selectExpiredFilters_elem, selectExpiredFilters_selected.
    split; [assumption |]. rewrite <- Hexp. apply isExpired_filterId. reflexivity. }
  split; [| split].
  - apply selectFiltersWithDiffPath_elem. eauto.
  - exact Hsel.
  - unfold filterUpdateDetailsToUpdate. simpl. fold all.
    apply keyed_values_filter.
    + apply foldl_uniqueStep_keyed, keyed_empty.
    + rewrite foldl_app. apply foldl_uniqueStep_forced.
      * intros d. apply selectExpiredFilters_force.
      * right. apply selectExpiredFilters_elem, Hsel.
Qed.

End FilterUpdateTasks.

(** ** Running the tasks *)

Section FilterUpdateCycle.
Import FilterUpdate.
Context (E : Env).

Lemma updateTask_fst acc vs d :
  fst (updateTask E (acc, vs) d) = acc ++ option_list (taskMetadata E d).
Proof.
  unfold updateTask, taskMetadata, remoteOf, CustomFilterApi_updateFilter,
    CommonFilterApi_updateFilter, commitUpdate.
  destruct (isCustomFilter E (filterId d)).
  - destruct (customRemote E d); simpl; rewrite ?app_nil_r; reflexivity.
  - destruct (commonRemote E d); simpl; rewrite ?app_nil_r; reflexivity.
Qed.

Lemma updateTask_snd_other acc vs d id :
  filterId d <> id -> snd (updateTask E (acc, vs) d) !! id = vs !! id.
Proof.
  intros Hne.
  unfold updateTask, CustomFilterApi_updateFilter, CommonFilterApi_updateFilter,
    commitUpdate.
  destruct (isCustomFilter E (filterId d)).
  - destruct (customRemote E d); simpl; rewrite ?lookup_insert_ne; auto.
  - destruct (commonRemote E d); simpl; rewrite ?lookup_insert_ne; auto.
Qed.

Lemma updateTask_snd_unsuccessful acc vs d :
  taskMetadata E d = None -> snd (updateTask E (acc, vs) d) = vs.
Proof.
  unfold updateTask, taskMetadata, remoteOf, CustomFilterApi_updateFilter,
    CommonFilterApi_updateFilter, commitUpdate.
  destruct (isCustomFilter E (filterId d)).
  - destruct (customRemote E d); simpl; auto; discriminate.
  - destruct (commonRemote E d); simpl; auto; discriminate.
Qed.

Lemma foldl_updateTask_fst l : forall acc vs,
  fst (foldl (updateTask E) (acc, vs) l) = acc ++ omap (taskMetadata E) l.
Proof.
  induction l as [| d l IH]; intros acc vs; cbn [foldl omap list_omap].
  - rewrite app_nil_r. reflexivity.
  - destruct (updateTask E (acc, vs) d) as [acc' vs'] eqn:Hstep.
    rewrite IH. pose proof (updateTask_fst acc vs d) as Hf. rewrite Hstep in Hf.
    simpl in Hf. subst acc'. rewrite <- app_assoc. f_equal.
    destruct (taskMetadata E d); reflexivity.
Qed.

Lemma foldl_updateTask_snd l : forall acc vs id,
  (forall d, d ∈ l -> filterId d = id -> taskMetadata E d = None) ->
  snd (foldl (updateTask E) (acc, vs) l) !! id = vs !! id.
Proof.
  induction l as [| d l IH]; intros acc vs id Hl; cbn [foldl]; [reflexivity |].
  destruct (updateTask E (acc, vs) d) as [acc' vs'] eqn:Hstep.
  rewrite IH by (intros d' Hd'; apply Hl, list_elem_of_further, Hd').
  replace vs' with (snd (updateTask E (acc, vs) d)) by (rewrite Hstep; reflexivity).
  destruct (Z.eq_dec (filterId d) id) as [Heq | Hne].
  - rewrite updateTask_snd_unsuccessful; [reflexivity |].
    apply Hl; [apply list_elem_of_here | assumption].
  - apply updateTask_snd_other, Hne.
Qed.

Lemma foldl_updateTask_committed l : forall acc vs id v,
  snd (foldl (updateTask E) (acc, vs) l) !! id = Some v ->
  vs !! id = Some v \/ lastCheckTime v = now E.
Proof.
  induction l as [| d l IH]; intros acc vs id v; cbn [foldl]; [auto |].
  destruct (updateTask E (acc, vs) d) as [acc' vs'] eqn:Hstep.
  intros H. apply IH in H as [H | H]; [| auto].
  replace vs' with (snd (updateTask E (acc, vs) d)) in H by (rewrite Hstep; reflexivity).
  revert H.
  unfold updateTask, CustomFilterApi_updateFilter, CommonFilterApi_updateFilter,
    commitUpdate.
  destruct (isCustomFilter E (filterId d)).
  - destruct (customRemote E d); simpl; auto.
    rewrite lookup_insert. case_decide; [| auto]. intros [= <-]. auto.
  - destruct (commonRemote E d); simpl; auto.
    rewrite lookup_insert. case_decide; [| auto]. intros [= <-]. auto.
Qed.

Lemma refreshLastCheckTime_lookup ids : forall vs id,
  refreshLastCheckTime E ids vs !! id
  = if bool_decide (id ∈ ids) then setLastCheckTime (now E) <$> vs !! id
    else vs !! id.
Proof.
  unfold refreshLastCheckTime.
  induction ids as [| a ids IH]; intros vs id; simpl; [reflexivity |].
  rewrite IH. destruct (decide (a = id)) as [-> | Hne].
  - rewrite lookup_alter_eq. rewrite (bool_decide_eq_true_2 (id ∈ id :: ids))
      by apply list_elem_of_here.
    case_bool_decide; [| reflexivity].
    destruct (vs !! id); reflexivity.
  - rewrite lookup_alter_ne by assumption.
    destruct (bool_decide (id ∈ ids)) eqn:Hin.
    + apply bool_decide_eq_true_1 in Hin.
      rewrite bool_decide_eq_true_2 by (apply list_elem_of_further, Hin). reflexivity.
    + apply bool_decide_eq_false_1 in Hin.
      rewrite bool_decide_eq_false_2; [reflexivity |].
      rewrite elem_of_cons. intros [-> | H]; contradiction.
Qed.

Lemma updateFilters_settled tasks w :
  shouldLoadMetadata E tasks && loadMetadataThrows E = false ->
  exists updated w1,
    updateFilters E tasks w = Some (updated, w1)
    /\ updated = omap (taskMetadata E) (completionOrder E tasks)
    /\ filterVersions w1
       = snd (foldl (updateTask E) ([], filterVersions w) (completionOrder E tasks))
    /\ engineUpdates w1 = engineUpdates w.
Proof.
  intros Hload. unfold updateFilters. cbv zeta. rewrite Hload.
  set (w0 := if shouldLoadMetadata E tasks then loadMetadataDone w else w).
  assert (Hvs : filterVersions w0 = filterVersions w)
    by (unfold w0; destruct (shouldLoadMetadata E tasks); reflexivity).
  assert (Hen : engineUpdates w0 = engineUpdates w)
    by (unfold w0; destruct (shouldLoadMetadata E tasks); reflexivity).
  destruct (foldl (updateTask E) ([], filterVersions w0) (completionOrder E tasks))
    as [updated vs'] eqn:Hrun.
  exists updated, (withVersions w0 vs'). split; [reflexivity |].
  rewrite <- Hvs, Hrun. split; [| split; [reflexivity | exact Hen]].
  pose proof (foldl_updateTask_fst (completionOrder E tasks) [] (filterVersions w0)) as Hf.
  rewrite Hrun in Hf. exact Hf.
Qed.

End FilterUpdateCycle.

(** ** The cycles *)

Section FilterUpdateEntryPoints.
Import FilterUpdate.
Context (E : Env).

Lemma map_filterId_forced ids :
  map filterId (map (fun id => {| filterId := id; force := true |}) ids) = ids.
Proof. rewrite map_map. simpl. apply map_id. Qed.

(** C2. Take any list of tasks handed to [updateFilters], whose metadata
    reload does not throw, and in it a filter whose task fails (every task
    of that filter, should the list hold more than one).  [updateFilters]
    still settles, the list it returns holds exactly the metadata of the
    tasks that succeeded (in the order they completed), and the version
    record of the failed filter is what it was before. *)
Theorem updateFilters_failure_isolated tasks w d :
  completionOrder E tasks ≡ₚ tasks ->
  shouldLoadMetadata E tasks && loadMetadataThrows E = false ->
  d ∈ tasks ->
  (forall d', d' ∈ tasks -> filterId d' = filterId d -> remoteOf E d' = RemoteFailure) ->
  exists updated w1,
    updateFilters E tasks w = Some (updated, w1)
    /\ updated ≡ₚ omap (taskMetadata E) tasks
    /\ filterVersions w1 !! filterId d = filterVersions w !! filterId d.
Proof.
  intros Hperm Hload Hd Hfail.
  destruct (updateFilters_settled E tasks w Hload) as (updated & w1 & Hrun & Hupd & Hvs & _).
  exists updated, w1. split; [exact Hrun |]. split.
  - rewrite Hupd, Hperm. reflexivity.
  - rewrite Hvs. apply foldl_updateTask_snd.
    intros d' Hd' Hid. rewrite Hperm in Hd'.
    unfold taskMetadata. rewrite (Hfail d' Hd' Hid). reflexivity.
Qed.

(** What the caller adds.  In a cycle of [autoUpdateFilters] that is not
    cut short by the settings and whose metadata reload does not throw,
    [updateFilters] leaves the version record of a filter whose task fails
    as it was, and the refresh that [autoUpdateFilters] does after it
    changes that record in one field: [lastCheckTime] becomes [now]. *)
Theorem autoUpdateFilters_failure_isolated forceUpdate w d :
  let tasks := filterUpdateDetailsToUpdate E (filterVersions w) forceUpdate
                 (settingFiltersUpdatePeriod E) in
  completionOrder E tasks ≡ₚ tasks ->
  settingDisableFiltering E && negb forceUpdate = false ->
  (settingFiltersUpdatePeriod E =? FiltersUpdateTime_Disabled E) && negb forceUpdate
    = false ->
  shouldLoadMetadata E tasks && loadMetadataThrows E = false ->
  d ∈ tasks ->
  remoteOf E d = RemoteFailure ->
  exists updated w1 w',
    updateFilters E tasks w = Some (updated, w1)
    /\ autoUpdateFilters E forceUpdate w = Some (updated, w')
    /\ updated ≡ₚ omap (taskMetadata E) tasks
    /\ filterVersions w1 !! filterId d = filterVersions w !! filterId d
    /\ filterVersions w' !! filterId d
       = setLastCheckTime (now E) <$> filterVersions w !! filterId d.
Proof.
  intros tasks Hperm Hoff Hperiod Hload Hd Hfail.
  destruct (updateFilters_settled E tasks w Hload) as (updated & w1 & Hrun & Hupd & Hvs & _).
  assert (Hkept : filterVersions w1 !! filterId d = filterVersions w !! filterId d).
  { rewrite Hvs. apply foldl_updateTask_snd.
    intros d' Hd' Hid. rewrite Hperm in Hd'.
    assert (d' = d) as ->
      by (eapply filterUpdateDetailsToUpdate_unique; eassumption).
    unfold taskMetadata. rewrite Hfail. reflexivity. }
  unfold autoUpdateFilters. rewrite Hoff, Hperiod. fold tasks. rewrite Hrun.
  eexists _, _, _. split; [reflexivity |]. split; [reflexivity |]. split; [| split].
  - rewrite Hupd, Hperm. reflexivity.
  - exact Hkept.
  - assert (Hw : forall w2 : World,
              filterVersions (if (0 <? length updated)%nat then debounceUpdate w2 else w2)
              = filterVersions w2) by (intros; destruct (0 <? length updated)%nat; reflexivity).
    rewrite Hw. simpl. rewrite refreshLastCheckTime_lookup.
    rewrite bool_decide_eq_true_2
      by (apply (list_elem_of_fmap_2 filterId), Hd).
    rewrite Hkept. reflexivity.
Qed.

(** C5, as the code has it.  After a cycle of [checkForFiltersUpdates]
    whose metadata reload does not throw, every filter that
    [selectFiltersIdsToUpdate] kept and that has a version record has
    [lastCheckTime = now]; the record of a filter that was not kept, as
    one skipped by the recency window, is what it was before. *)
Theorem checkForFiltersUpdates_refreshes_selected filterIds w :
  let filtersToCheck := selectFiltersIdsToUpdate E (filterVersions w) filterIds in
  let tasks := map (fun id => {| filterId := id; force := true |}) filtersToCheck in
  completionOrder E tasks ≡ₚ tasks ->
  shouldLoadMetadata E tasks && loadMetadataThrows E = false ->
  exists updated w',
    checkForFiltersUpdates E filterIds w = Some (updated, w')
    /\ (forall id v, id ∈ filtersToCheck ->
          filterVersions w' !! id = Some v -> lastCheckTime v = now E)
    /\ (forall id, id ∉ filtersToCheck ->
          filterVersions w' !! id = filterVersions w !! id).
Proof.
  intros filtersToCheck tasks Hperm Hload.
  destruct (updateFilters_settled E tasks w Hload) as (updated & w1 & Hrun & _ & Hvs & _).
  unfold checkForFiltersUpdates. fold filtersToCheck. fold tasks. rewrite Hrun.
  eexists _, _. split; [reflexivity |]. simpl. split.
  - intros id v Hin. rewrite refreshLastCheckTime_lookup.
    rewrite bool_decide_eq_true_2 by assumption.
    destruct (filterVersions w1 !! id); simpl; [| discriminate].
    intros [= <-]. reflexivity.
  - intros id Hnotin. rewrite refreshLastCheckTime_lookup.
    rewrite bool_decide_eq_false_2 by assumption.
    rewrite Hvs. apply foldl_updateTask_snd.
    intros d Hd Hid. exfalso. apply Hnotin.
    rewrite Hperm in Hd. unfold tasks in Hd.
    apply list_elem_of_fmap in Hd as (i & -> & Hi). simpl in Hid. subst i. exact Hi.
Qed.

(** C8. Without [forceUpdate], disabled filtering and a disabled update
    period each make [autoUpdateFilters] return the empty list and leave
    everything as it was.  With [forceUpdate] neither setting is looked at
    to any effect: the cycle runs [updateFilters] on every installed and
    enabled filter with [force = true], refreshes their last check time
    and signals the engine when something was updated. *)
Theorem autoUpdateFilters_short_circuit w :
  (settingDisableFiltering E = true -> autoUpdateFilters E false w = Some ([], w))
  /\ (settingFiltersUpdatePeriod E = FiltersUpdateTime_Disabled E ->
        autoUpdateFilters E false w = Some ([], w))
  /\ autoUpdateFilters E true w
     = match updateFilters E
               (map (fun id => {| filterId := id; force := true |})
                  (getInstalledAndEnabledFiltersIds E)) w with
       | None => None
       | Some (updatedFilters, w1) =>
           let w2 :=
             withVersions w1
               (refreshLastCheckTime E (getInstalledAndEnabledFiltersIds E)
                  (filterVersions w1)) in
           Some (updatedFilters,
                 if (0 <? length updatedFilters)%nat then debounceUpdate w2 else w2)
       end.
Proof.
  split; [| split].
  - intros Hoff. unfold autoUpdateFilters. rewrite Hoff. reflexivity.
  - intros Hperiod. unfold autoUpdateFilters. rewrite Hperiod, Z.eqb_refl.
    destruct (settingDisableFiltering E); reflexivity.
  - unfold autoUpdateFilters, filterUpdateDetailsToUpdate. simpl.
    rewrite !andb_false_r, map_filterId_forced. reflexivity.
Qed.

End FilterUpdateEntryPoints.

(** ** The concrete installation *)

Section FilterUpdateScenario.
Import FilterUpdate Scenario.

Local Abbreviation E := (env false (-1)).
Local Abbreviation installed :=
  (map (fun id => {| filterId := id; force := false |}) [1; 2; 3]).

(** The example of the spec: with [expires = 3600], a filter checked 3700 s
    ago is selected and one checked 3500 s ago is not. *)
Example selectExpiredFilters_example :
  selectExpiredFilters E versions installed (-1)
  = [ {| filterId := 1; force := true |} ].
Proof. vm_compute. reflexivity. Qed.

Lemma selectExpiredFilters_staleness_witness :
  versions !! 1 = Some (record (clock - 3700 * 1000) (Some "patches/1.patch"))
  /\ 1 ∈ map filterId installed
  /\ 1 ∈ map filterId (selectExpiredFilters E versions installed (-1)).
Proof.
  assert (Hv : versions !! 1
               = Some (record (clock - 3700 * 1000) (Some "patches/1.patch")))
    by (vm_compute; reflexivity).
  assert (Hin : 1 ∈ map filterId installed) by (simpl; in_list).
  split; [exact Hv |]. split; [exact Hin |].
  apply (proj1 (selectExpiredFilters_staleness E versions installed (-1) 1 _ Hv Hin)).
  - reflexivity.
  - vm_compute. discriminate.
Defined.

Lemma merged_task_is_forced_witness :
  1 ∈ getInstalledAndEnabledFiltersIds E
  /\ List.filter (fun d => filterId d =? 1)
       (filterUpdateDetailsToUpdate E versions false (-1))
     = [ {| filterId := 1; force := true |} ].
Proof.
  assert (Hin : 1 ∈ getInstalledAndEnabledFiltersIds E) by (simpl; in_list).
  split; [exact Hin |].
  apply (merged_task_is_forced E versions (-1) 1
           (record (clock - 3700 * 1000) (Some "patches/1.patch")) Hin).
  - vm_compute. reflexivity.
  - reflexivity.
  - vm_compute. reflexivity.
Defined.

Lemma selectFiltersIdsToUpdate_recency_witness :
  4 ∈ [3; 4; 1000]
  /\ 1000 ∈ selectFiltersIdsToUpdate E versions [3; 4; 1000]
  /\ (3 ∉ selectFiltersIdsToUpdate E versions [3; 4; 1000])
  /\ 4 ∈ selectFiltersIdsToUpdate E versions [3; 4; 1000].
Proof.
  assert (H3 : 3 ∈ [3; 4; 1000]) by in_list.
  assert (H4 : 4 ∈ [3; 4; 1000]) by in_list.
  assert (H1000 : 1000 ∈ [3; 4; 1000]) by in_list.
  split; [exact H4 |]. split; [| split].
  - apply (selectFiltersIdsToUpdate_recency E versions _ 1000 H1000). reflexivity.
  - apply (selectFiltersIdsToUpdate_recency E versions _ 3 H3)
      with (v := record (clock - 4 * 60 * 1000) None);
      [reflexivity | vm_compute; reflexivity | reflexivity].
  - apply (selectFiltersIdsToUpdate_recency E versions _ 4 H4)
      with (v := record (clock - 6 * 60 * 1000) None);
      [reflexivity | vm_compute; reflexivity | reflexivity].
Defined.

(** The example of the spec: of three tasks the second fails; the
    metadata of the first and the third come back. *)
Example autoUpdateFilters_example :
  fst <$> autoUpdateFilters E true world = Some [fresh 3; fresh 1].
Proof. vm_compute. reflexivity. Qed.

Lemma updateFilters_failure_isolated_witness :
  exists updated w1,
    updateFilters E (map (fun id => {| filterId := id; force := true |}) [1; 2; 3]) world
      = Some (updated, w1)
    /\ updated ≡ₚ [fresh 1; fresh 3]
    /\ filterVersions w1 !! 2 = Some (record (clock - 3500 * 1000) None).
Proof.
  destruct (updateFilters_failure_isolated E
              (map (fun id => {| filterId := id; force := true |}) [1; 2; 3]) world
              {| filterId := 2; force := true |})
    as (updated & w1 & Hrun & Hupd & Hkept).
  - apply reverse_Permutation.
  - reflexivity.
  - simpl. in_list.
  - intros d' Hd' Hid. apply list_elem_of_In in Hd'. simpl in Hd'.
    destruct Hd' as [<- | [<- | [<- | []]]]; try discriminate. reflexivity.
  - exists updated, w1. split; [exact Hrun |]. split; [exact Hupd |].
    simpl in Hkept. rewrite Hkept. vm_compute. reflexivity.
Defined.

Lemma autoUpdateFilters_failure_isolated_witness :
  exists updated w1 w',
    updateFilters E (map (fun id => {| filterId := id; force := true |}) [1; 2; 3]) world
      = Some (updated, w1)
    /\ autoUpdateFilters E true world = Some (updated, w')
    /\ updated ≡ₚ [fresh 1; fresh 3]
    /\ filterVersions w1 !! 2 = Some (record (clock - 3500 * 1000) None)
    /\ filterVersions w' !! 2 = Some (record clock None).
Proof.
  destruct (autoUpdateFilters_failure_isolated E true world
              {| filterId := 2; force := true |})
    as (updated & w1 & w' & Hrun1 & Hrun & Hupd & Hkept & Hvs).
  - apply reverse_Permutation.
  - reflexivity.
  - reflexivity.
  - reflexivity.
  - simpl. in_list.
  - reflexivity.
  - exists updated, w1, w'. split; [exact Hrun1 |]. split; [exact Hrun |].
    split; [exact Hupd |]. simpl in Hkept, Hvs. split.
    + rewrite Hkept. vm_compute. reflexivity.
    + rewrite Hvs. vm_compute. reflexivity.
Defined.

Lemma checkForFiltersUpdates_refreshes_selected_witness :
  exists updated w',
    checkForFiltersUpdates E [3; 4] world = Some (updated, w')
    /\ (forall v, filterVersions w' !! 4 = Some v -> lastCheckTime v = clock)
    /\ filterVersions w' !! 3 = Some (record (clock - 4 * 60 * 1000) None).
Proof.
  destruct (checkForFiltersUpdates_refreshes_selected E [3; 4] world)
    as (updated & w' & Hrun & Hsel & Hskip).
  - apply reverse_Permutation.
  - reflexivity.
  - assert (Hs : selectFiltersIdsToUpdate E (filterVersions world) [3; 4] = [4])
      by (vm_compute; reflexivity).
    rewrite Hs in Hsel, Hskip.
    exists updated, w'. split; [exact Hrun |]. split.
    + intros v Hv. apply (Hsel 4 v); [in_list | exact Hv].
    + rewrite (Hskip 3); [vm_compute; reflexivity |].
      rewrite list_elem_of_In. simpl. intros [H | []]. discriminate.
Defined.

(** Filter 3 was a candidate and was skipped, having been checked four
    minutes before; after the cycle its last check is still four minutes
    back. *)
Lemma refreshesEveryCandidate_counterexample :
  ~ AsStated.refreshesEveryCandidate E [3; 4] world.
Proof.
  intros H.
  assert (Hc : lastCheckTimeAfter (checkForFiltersUpdates E [3; 4] world) 3
               = Some (clock - 4 * 60 * 1000))
    by (vm_compute; reflexivity).
  destruct (checkForFiltersUpdates E [3; 4] world) as [[updated w'] |] eqn:Hrun;
    [| discriminate].
  simpl in Hc. destruct (filterVersions w' !! 3) as [v |] eqn:Hv; [| discriminate].
  assert (Hnow : lastCheckTime v = now E).
  { apply (H updated w' 3 v Hrun); [in_list | exact Hv]. }
  simpl in Hc. rewrite Hnow in Hc. vm_compute in Hc. discriminate.
Qed.

Example autoUpdateFilters_filtering_disabled :
  autoUpdateFilters (env true (-1)) false world = Some ([], world)
  /\ autoUpdateFilters (env false 0) false world = Some ([], world)
  /\ fst <$> autoUpdateFilters (env true 0) true world = Some [fresh 3; fresh 1].
Proof. repeat split; vm_compute; reflexivity. Qed.

End FilterUpdateScenario.

(** ** The insertion ordered set *)

Section JsSetFacts.
Implicit Types (s : JsSet.t) (x y : Z) (xs : list Z).

Lemma JsSet_has_true x s : JsSet.has x s = true <-> x ∈ s.
Proof. unfold JsSet.has. apply bool_decide_eq_true. Qed.

Lemma JsSet_add_elem s x y : y ∈ JsSet.add s x <-> y ∈ s \/ y = x.
Proof.
  unfold JsSet.add, JsSet.has. case_bool_decide as Hx.
  - split; [auto |]. intros [H | ->]; assumption.
  - rewrite elem_of_app, list_elem_of_singleton. reflexivity.
Qed.

Lemma JsSet_add_member s x : x ∈ s -> JsSet.add s x = s.
Proof.
  intros Hx. unfold JsSet.add, JsSet.has. rewrite bool_decide_eq_true_2 by assumption.
  reflexivity.
Qed.

(** What [addAll] appends: the values of [xs] that are new, each once, in
    the order of their first occurrence. *)
Lemma JsSet_addAll_appends xs : forall s,
  exists new,
    JsSet.addAll s xs = s ++ new
    /\ new `sublist_of` xs
    /\ NoDup new
    /\ forall y, y ∈ new <-> y ∈ xs /\ y ∉ s.
Proof.
  unfold JsSet.addAll.
  induction xs as [| x xs IH]; intros s; cbn [foldl].
  - exists []. rewrite app_nil_r. split; [reflexivity |].
    split; [reflexivity |]. split; [apply NoDup_nil_2 |].
    intros y. split; [intros H | intros [H _]]; apply elem_of_nil in H; contradiction.
  - destruct (decide (x ∈ s)) as [Hx | Hx].
    + rewrite JsSet_add_member by assumption.
      destruct (IH s) as (new & Heq & Hsub & Hnd & Hmem).
      exists new. split; [exact Heq |]. split; [apply sublist_cons, Hsub |].
      split; [exact Hnd |]. intros y. rewrite Hmem, elem_of_cons.
      split; [tauto |]. intros [[-> | H] Hy]; [contradiction | auto].
    + assert (Hadd : JsSet.add s x = s ++ [x]).
      { unfold JsSet.add, JsSet.has. rewrite bool_decide_eq_false_2 by assumption.
        reflexivity. }
      rewrite Hadd. destruct (IH (s ++ [x])) as (new & Heq & Hsub & Hnd & Hmem).
      exists (x :: new). split; [rewrite Heq, <- app_assoc; reflexivity |].
      split; [apply sublist_skip, Hsub |].
      assert (Hxnew : x ∉ new).
      { rewrite Hmem, elem_of_app, list_elem_of_singleton. tauto. }
      split; [apply NoDup_cons; auto |].
      intros y. rewrite !elem_of_cons, Hmem, elem_of_app, list_elem_of_singleton.
      destruct (decide (y = x)) as [-> | Hne]; tauto.
Qed.

Lemma JsSet_addAll_elem s xs y : y ∈ JsSet.addAll s xs <-> y ∈ s \/ y ∈ xs.
Proof.
  destruct (JsSet_addAll_appends xs s) as (new & -> & _ & _ & Hmem).
  rewrite elem_of_app, Hmem. destruct (decide (y ∈ s)); tauto.
Qed.

Lemma JsSet_addAll_members s xs : (forall x, x ∈ xs -> x ∈ s) -> JsSet.addAll s xs = s.
Proof.
  intros Hall. destruct (JsSet_addAll_appends xs s) as (new & -> & _ & _ & Hmem).
  destruct new as [| y new]; [apply app_nil_r |].
  exfalso. destruct (proj1 (Hmem y) (list_elem_of_here _ _)) as [Hy Hn]. auto.
Qed.

Lemma JsSet_addAll_again s xs : JsSet.addAll (JsSet.addAll s xs) xs = JsSet.addAll s xs.
Proof. apply JsSet_addAll_members. intros x Hx. apply JsSet_addAll_elem. auto. Qed.

Lemma JsSet_addAll_NoDup s xs : NoDup s -> NoDup (JsSet.addAll s xs).
Proof.
  intros Hs. destruct (JsSet_addAll_appends xs s) as (new & -> & _ & Hnd & Hmem).
  apply NoDup_app. split; [assumption |]. split; [| assumption].
  intros y Hy Hy'. apply Hmem in Hy'. tauto.
Qed.

End JsSetFacts.

(** ** The consent storage *)

Section ConsentStorageFacts.
Import ConsentStorage.

Lemma pushIfMissing_add d id : pushIfMissing d id = JsSet.add d id.
Proof. unfold pushIfMissing, JsSet.add, JsSet.has. repeat case_bool_decide; done. Qed.

Lemma foldl_pushIfMissing d ids : foldl pushIfMissing d ids = JsSet.addAll d ids.
Proof.
  unfold JsSet.addAll. revert d. induction ids as [| x ids IH]; intros d; cbn [foldl].
  - reflexivity.
  - rewrite pushIfMissing_add. apply IH.
Qed.

(** C10. [AnnoyancesConsentStorage.addFilterIds] throws the error with the
    message 'annoyances consent is not initialized' when [data] is not
    initialized, whatever is persisted, and reads nothing from the
    storage.  When [data] is initialized it keeps the existing ids in
    place and appends, each once and in the order given, the ids that
    were not present; the persisted value is not touched. *)
Theorem addFilterIds_not_initialized_or_appends (filterIds : list Z) (p : Stored) (r : nat) :
  addFilterIds filterIds {| stored := p; data := None; reads := r |}
    = inl (MkError "annoyances consent is not initialized")
  /\ forall d : list Z,
       exists new,
         addFilterIds filterIds {| stored := p; data := Some d; reads := r |}
           = inr {| stored := p; data := Some (d ++ new); reads := r |}
         /\ new `sublist_of` filterIds
         /\ NoDup new
         /\ forall id, id ∈ new <-> id ∈ filterIds /\ id ∉ d.
Proof.
  split; [reflexivity |]. intros d.
  destruct (JsSet_addAll_appends filterIds d) as (new & Heq & Hsub & Hnd & Hmem).
  exists new. split; [| auto].
  unfold addFilterIds. simpl. rewrite foldl_pushIfMissing, Heq. reflexivity.
Qed.

Example addFilterIds_example :
  addFilterIds [3; 1; 4; 3; 2] {| stored := NotAString; data := Some [1; 2]; reads := 0 |}
  = inr {| stored := NotAString; data := Some [1; 2; 3; 4]; reads := 0 |}.
Proof. reflexivity. Qed.

Lemma getFromStorage_spec s :
  fst (getFromStorage s) = parsed (stored s)
  /\ parsed (stored (snd (getFromStorage s))) = parsed (stored s)
  /\ reads (snd (getFromStorage s)) = S (reads s).
Proof. unfold getFromStorage. simpl. destruct (stored s); simpl; auto. Qed.

End ConsentStorageFacts.

(** ** The consent API whose set starts empty *)

Section ConsentEagerFacts.
Import ConsentStorage ConsentEager.

Lemma eager_addFilterIds_spec filterIds a :
  consentedFilterIds (addFilterIds filterIds a) = JsSet.addAll (consented a) filterIds
  /\ stored (storage (addFilterIds filterIds a))
     = JsonArray (JsSet.addAll (consented a) filterIds)
  /\ data (storage (addFilterIds filterIds a))
     = Some (JsSet.addAll (consented a) filterIds).
Proof.
  unfold addFilterIds, consented, JsSet.size.
  destruct (consentedFilterIds a) as [| x s] eqn:Hs; simpl.
  - destruct (getFromStorage_spec (storage a)) as (Hfst & _ & _).
    destruct (getFromStorage (storage a)) as [fromStorage s1]. simpl in *.
    subst fromStorage. auto.
  - auto.
Qed.

Lemma eager_consented_after filterIds a :
  consented (addFilterIds filterIds a) = consentedFilterIds (addFilterIds filterIds a).
Proof.
  destruct (eager_addFilterIds_spec filterIds a) as (Hset & Hstored & _).
  unfold consented. rewrite Hstored, Hset. unfold JsSet.size.
  destruct (JsSet.addAll (consented a) filterIds); reflexivity.
Qed.

(** C9. In the class whose set starts empty [isConsentedFilter] leaves the
    object and its storage as they are, so nothing is read; and as long as
    only [isConsentedFilter] has been called on a new object, it answers
    [false] for every id, whatever the storage holds. *)
Theorem eager_isConsentedFilter_never_reads (s : ConsentStorage.t) (asked : list Z) (id : Z) :
  (forall a, snd (isConsentedFilter id a) = a)
  /\ foldl call (create s) (map CallIsConsentedFilter asked) = create s
  /\ isConsentedFilter id (foldl call (create s) (map CallIsConsentedFilter asked))
     = (false, create s).
Proof.
  assert (Hsame : foldl call (create s) (map CallIsConsentedFilter asked) = create s).
  { induction asked as [| q asked IH]; simpl; [reflexivity | exact IH]. }
  split; [reflexivity |]. split; [exact Hsame |].
  rewrite Hsame. reflexivity.
Qed.

Example eager_isConsentedFilter_persisted :
  isConsentedFilter 5 (create {| stored := JsonArray [5]; data := None; reads := 0 |})
  = (false, create {| stored := JsonArray [5]; data := None; reads := 0 |}).
Proof. reflexivity. Qed.

End ConsentEagerFacts.

(** ** The consent API whose set starts as [null] *)

Section ConsentLazyFacts.
Import ConsentStorage ConsentLazy.

Lemma lazy_addFilterIds_spec filterIds a :
  consentedFilterIds (addFilterIds filterIds a)
    = Some (JsSet.addAll (consented a) filterIds)
  /\ stored (storage (addFilterIds filterIds a))
     = JsonArray (JsSet.addAll (consented a) filterIds)
  /\ data (storage (addFilterIds filterIds a))
     = Some (JsSet.addAll (consented a) filterIds).
Proof.
  unfold addFilterIds, consented, restoreConsentedFilterIds.
  destruct (consentedFilterIds a) as [s |] eqn:Hs.
  - rewrite Hs. simpl. auto.
  - destruct (getFromStorage_spec (storage a)) as (Hfst & _ & _).
    destruct (getFromStorage (storage a)) as [fromStorage s1]. simpl in *.
    subst fromStorage. auto.
Qed.

Lemma lazy_call_first a c :
  consentedFilterIds a = None ->
  reads (storage (call a c)) = S (reads (storage a))
  /\ consentedFilterIds (call a c) <> None.
Proof.
  intros Hnull.
  destruct c as [filterIds | id]; simpl;
    unfold addFilterIds, isConsentedFilter, restoreConsentedFilterIds; rewrite Hnull;
    destruct (getFromStorage_spec (storage a)) as (_ & _ & Hreads);
    destruct (getFromStorage (storage a)) as [fromStorage s1]; simpl in *;
    (split; [exact Hreads | discriminate]).
Qed.

Lemma lazy_call_later a c :
  consentedFilterIds a <> None ->
  reads (storage (call a c)) = reads (storage a)
  /\ consentedFilterIds (call a c) <> None.
Proof.
  intros Hset. destruct (consentedFilterIds a) as [s |] eqn:Hs; [| contradiction].
  destruct c as [filterIds | id]; simpl;
    unfold addFilterIds, isConsentedFilter; rewrite Hs; simpl; rewrite ?Hs;
    (split; [reflexivity | discriminate || assumption]).
Qed.

Lemma lazy_calls_later cs : forall a,
  consentedFilterIds a <> None ->
  reads (storage (foldl call a cs)) = reads (storage a).
Proof.
  induction cs as [| c cs IH]; intros a Hset; cbn [foldl]; [reflexivity |].
  destruct (lazy_call_later a c Hset) as [Hreads Hset'].
  rewrite IH by assumption. exact Hreads.
Qed.

(** In the class whose set starts as [null], the first call, of either
    operation, reads the storage once, and however many calls follow
    nothing is read again. *)
Lemma lazy_reads_once (s : ConsentStorage.t) (c : ConsentCall) (cs : list ConsentCall) :
  reads (storage (call (create s) c)) = S (reads s)
  /\ reads (storage (foldl call (create s) (c :: cs))) = S (reads s).
Proof.
  destruct (lazy_call_first (create s) c eq_refl) as [Hreads Hset].
  split; [exact Hreads |]. cbn [foldl]. rewrite lazy_calls_later by assumption.
  exact Hreads.
Qed.

End ConsentLazyFacts.

(** ** Consent is additive and idempotent *)

Section ConsentAdditive.
Import ConsentStorage.

(** C6. In both consent classes [addFilterIds] leaves a set that is the
    consented set from before followed by the new ids: its members are
    those of the set before and those of the input, and the whole set is
    what is persisted when the call is done.  A second call with the same
    ids changes neither the set in memory nor the persisted one.  On a new
    object over an empty storage, [addFilterIds([1,2])] then
    [addFilterIds([2,3])] persists 1, 2, 3, and [addFilterIds([1])] twice
    persists 1 once. *)
Theorem addFilterIds_additive_idempotent (filterIds : list Z) :
  (forall a : ConsentLazy.t,
     let a' := ConsentLazy.addFilterIds filterIds a in
     exists s' new,
       ConsentLazy.consentedFilterIds a' = Some s'
       /\ stored (ConsentLazy.storage a') = JsonArray s'
       /\ s' = ConsentLazy.consented a ++ new
       /\ (forall x, x ∈ s' <-> x ∈ ConsentLazy.consented a \/ x ∈ filterIds)
       /\ ConsentLazy.consentedFilterIds (ConsentLazy.addFilterIds filterIds a') = Some s'
       /\ stored (ConsentLazy.storage (ConsentLazy.addFilterIds filterIds a'))
          = JsonArray s')
  /\ (forall a : ConsentEager.t,
     let a' := ConsentEager.addFilterIds filterIds a in
     exists s' new,
       ConsentEager.consentedFilterIds a' = s'
       /\ stored (ConsentEager.storage a') = JsonArray s'
       /\ s' = ConsentEager.consented a ++ new
       /\ (forall x, x ∈ s' <-> x ∈ ConsentEager.consented a \/ x ∈ filterIds)
       /\ ConsentEager.consentedFilterIds (ConsentEager.addFilterIds filterIds a') = s'
       /\ stored (ConsentEager.storage (ConsentEager.addFilterIds filterIds a'))
          = JsonArray s')
  /\ stored (ConsentLazy.storage
               (ConsentLazy.addFilterIds [2; 3]
                  (ConsentLazy.addFilterIds [1; 2] (ConsentLazy.create untouched))))
     = JsonArray [1; 2; 3]
  /\ stored (ConsentLazy.storage
               (ConsentLazy.addFilterIds [1]
                  (ConsentLazy.addFilterIds [1] (ConsentLazy.create untouched))))
     = JsonArray [1]
  /\ stored (ConsentEager.storage
               (ConsentEager.addFilterIds [2; 3]
                  (ConsentEager.addFilterIds [1; 2] (ConsentEager.create untouched))))
     = JsonArray [1; 2; 3]
  /\ stored (ConsentEager.storage
               (ConsentEager.addFilterIds [1]
                  (ConsentEager.addFilterIds [1] (ConsentEager.create untouched))))
     = JsonArray [1].
Proof.
  split; [| split; [| repeat split; reflexivity]].
  - intros a a'.
    destruct (lazy_addFilterIds_spec filterIds a) as (Hset & Hstored & _).
    destruct (lazy_addFilterIds_spec filterIds a') as (Hset2 & Hstored2 & _).
    fold a' in Hset, Hstored.
    assert (Hc : ConsentLazy.consented a'
                 = JsSet.addAll (ConsentLazy.consented a) filterIds)
      by (unfold ConsentLazy.consented at 1; rewrite Hset; reflexivity).
    rewrite Hc, JsSet_addAll_again in Hset2, Hstored2.
    destruct (JsSet_addAll_appends filterIds (ConsentLazy.consented a))
      as (new & Heq & _).
    exists (JsSet.addAll (ConsentLazy.consented a) filterIds), new.
    repeat split; try assumption; try (apply JsSet_addAll_elem; assumption).
  - intros a a'.
    destruct (eager_addFilterIds_spec filterIds a) as (Hset & Hstored & _).
    destruct (eager_addFilterIds_spec filterIds a') as (Hset2 & Hstored2 & _).
    fold a' in Hset, Hstored.
    assert (Hc : ConsentEager.consented a'
                 = JsSet.addAll (ConsentEager.consented a) filterIds)
      by (unfold a'; rewrite eager_consented_after; exact Hset).
    rewrite Hc, JsSet_addAll_again in Hset2, Hstored2.
    destruct (JsSet_addAll_appends filterIds (ConsentEager.consented a))
      as (new & Heq & _).
    exists (JsSet.addAll (ConsentEager.consented a) filterIds), new.
    repeat split; try assumption; try (apply JsSet_addAll_elem; assumption).
Qed.

(** C7. The class whose set starts empty does not populate it on the first
    call when that call is [isConsentedFilter]: with filter 5 persisted, a
    new object answers [false] for 5 and has read nothing, where the class
    whose set starts as [null] answers [true]; and its [addFilterIds]
    reads the storage again on every call made while the set is empty. *)
Theorem eager_consent_not_materialized_once :
  let persisted := {| stored := JsonArray [5]; data := None; reads := 0 |} in
  ConsentEager.isConsentedFilter 5 (ConsentEager.create persisted)
    = (false, ConsentEager.create persisted)
  /\ fst (ConsentLazy.isConsentedFilter 5 (ConsentLazy.create persisted)) = true
  /\ reads (ConsentLazy.storage
              (snd (ConsentLazy.isConsentedFilter 5 (ConsentLazy.create persisted))))
     = 1%nat
  /\ reads (ConsentEager.storage
              (ConsentEager.addFilterIds []
                 (ConsentEager.addFilterIds [] (ConsentEager.create untouched))))
     = 2%nat.
Proof. repeat split; reflexivity. Qed.

End ConsentAdditive.

(** * Further properties of the filter update API *)

Section SelectionMembers.
Import FilterUpdate.
Context (E : Env) (vs : gmap Z FilterVersion).

Lemma selectExpiredFilters_member details updatePeriod d :
  d ∈ selectExpiredFilters E vs details updatePeriod
  <-> force d = true
      /\ filterId d ∈ map filterId details
      /\ isExpired E vs updatePeriod d = true.
Proof.
  split.
  - intros Hd. pose proof (selectExpiredFilters_force E vs _ _ _ Hd) as Hf.
    split; [exact Hf |].
    assert (Hid : filterId d ∈ map filterId (selectExpiredFilters E vs details updatePeriod))
      by (apply (list_elem_of_fmap_2 filterId), Hd).
    apply selectExpiredFilters_selected in Hid as [Hin Hex]. split; [exact Hin |].
    rewrite <- Hex. apply isExpired_filterId. reflexivity.
  - intros (Hf & Hin & Hex). destruct d as [id f]. simpl in *. subst f.
    apply selectExpiredFilters_elem, selectExpiredFilters_selected. auto.
Qed.

End SelectionMembers.

Section SelectionEdges.
Import FilterUpdate Later.
Context (E : Env) (vs : gmap Z FilterVersion).

Lemma isExpired_later updatePeriod d t :
  now E <= t ->
  isExpired E vs updatePeriod d = true ->
  isExpired (atTime E t) vs updatePeriod d = true.
Proof.
  unfold isExpired. simpl. intros Ht.
  destruct (vs !! filterId d) as [v |]; [| reflexivity].
  destruct (updatePeriod =? DEFAULT_FILTERS_UPDATE_PERIOD E);
    rewrite !Z.leb_le; lia.
Qed.

(** X1. A filter that has no version record is selected as expired whatever
    the update period is, the one that stands for the lists' own [expires]
    included, and is emitted with [force = true]. *)
Theorem selectExpiredFilters_missing_record details updatePeriod id :
  vs !! id = None ->
  id ∈ map filterId details ->
  {| filterId := id; force := true |} ∈ selectExpiredFilters E vs details updatePeriod.
Proof.
  intros Hnone Hin. apply selectExpiredFilters_member. simpl.
  split; [reflexivity |]. split; [exact Hin |].
  unfold isExpired. simpl. rewrite Hnone. reflexivity.
Qed.

(** X2. Expiry only comes with time: a detail that [selectExpiredFilters]
    selects when the clock reads [now] is selected by it at every later
    reading of the clock, as long as the version records and the period are
    the same. *)
Theorem selectExpiredFilters_stays_expired details updatePeriod t d :
  now E <= t ->
  d ∈ selectExpiredFilters E vs details updatePeriod ->
  d ∈ selectExpiredFilters (atTime E t) vs details updatePeriod.
Proof.
  intros Ht Hd. apply selectExpiredFilters_member in Hd as (Hf & Hin & Hex).
  apply selectExpiredFilters_member. split; [exact Hf |]. split; [exact Hin |].
  apply isExpired_later; assumption.
Qed.

(** X3. [selectFiltersWithDiffPath] emits exactly the details of its input
    whose filter has a version record with a non-empty [diffPath], each with
    [force = false]: a filter without a record and one whose [diffPath] is
    missing or the empty string are left out. *)
Theorem selectFiltersWithDiffPath_exactly details d :
  d ∈ selectFiltersWithDiffPath vs details
  <-> force d = false
      /\ filterId d ∈ map filterId details
      /\ exists v c s, vs !! filterId d = Some v /\ diffPath v = Some (String c s).
Proof.
  assert (Htruthy : forall o, truthy o = true <-> exists c s, o = Some (String c s)).
  { intros [[| c s] |]; simpl; split; try discriminate; eauto.
    - intros (c & s & [=]).
    - intros (c & s & [=]). }
  split.
  - intros Hd.
    assert (Hf : force d = false).
    { unfold selectFiltersWithDiffPath in Hd.
      apply list_elem_of_fmap in Hd as (d0 & -> & _). reflexivity. }
    destruct d as [id f]. simpl in *. subst f.
    apply selectFiltersWithDiffPath_elem in Hd as (Hin & v & Hv & Ht).
    split; [reflexivity |]. split; [exact Hin |].
    apply Htruthy in Ht as (c & s & Hdp). eauto.
  - intros (Hf & Hin & v & c & s & Hv & Hdp). destruct d as [id f]. simpl in *. subst f.
    apply selectFiltersWithDiffPath_elem. split; [exact Hin |].
    exists v. split; [exact Hv |]. apply Htruthy. eauto.
Qed.

(** X4. The recency selection only grows with time: an id that
    [selectFiltersIdsToUpdate] keeps when the clock reads [now] is kept at
    every later reading, as long as the version records are the same. *)
Theorem selectFiltersIdsToUpdate_stays_selected filterIds t id :
  now E <= t ->
  id ∈ selectFiltersIdsToUpdate E vs filterIds ->
  id ∈ selectFiltersIdsToUpdate (atTime E t) vs filterIds.
Proof.
  intros Ht. rewrite !selectFiltersIdsToUpdate_elem. simpl.
  intros [Hin [Hc | Ho]]; split; auto.
  right. intros v Hv. specialize (Ho v Hv). lia.
Qed.

End SelectionEdges.

Section MergeFacts.
Import FilterUpdate.

Lemma JsMap_elem_get {V} (m : JsMap.t V) k v :
  NoDup (JsMap.keys m) -> (k, v) ∈ m -> JsMap.get k m = Some v.
Proof.
  induction m as [| [k' v'] m IH]; simpl; intros Hnd Hin.
  - apply elem_of_nil in Hin. contradiction.
  - apply NoDup_cons in Hnd as [Hk' Hnd]. apply elem_of_cons in Hin as [[= -> ->] | Hin].
    + rewrite Z.eqb_refl. reflexivity.
    + destruct (Z.eqb_spec k k') as [-> | Hne]; [| apply IH; assumption].
      exfalso. apply Hk'. unfold JsMap.keys. apply list_elem_of_fmap.
      exists (k', v). auto.
Qed.

Lemma keyed_values_get m d :
  keyed m -> (d ∈ JsMap.values m <-> JsMap.get (filterId d) m = Some d).
Proof.
  intros [Hnd Hk]. split.
  - intros Hd. unfold JsMap.values in Hd.
    apply list_elem_of_fmap in Hd as ([k d'] & -> & Hin). simpl.
    rewrite (Hk _ _ Hin). apply JsMap_elem_get; assumption.
  - intros Hg. apply JsMap_get_elem in Hg. unfold JsMap.values.
    apply list_elem_of_fmap. eexists. split; [| exact Hg]. reflexivity.
Qed.

Lemma keyed_values_ids m : keyed m -> map filterId (JsMap.values m) = JsMap.keys m.
Proof.
  intros [_ Hk]. unfold JsMap.values, JsMap.keys. rewrite map_map.
  apply map_ext_in. intros [k d] Hin. simpl. apply Hk, list_elem_of_In, Hin.
Qed.

Lemma uniqueStep_get_other m d id :
  filterId d <> id -> JsMap.get id (uniqueStep m d) = JsMap.get id m.
Proof.
  intros Hne. unfold uniqueStep.
  destruct (negb (JsMap.has (filterId d) m) || force d); [| reflexivity].
  apply JsMap_get_set_ne, Hne.
Qed.

Lemma foldl_uniqueStep_get_other l : forall m id,
  id ∉ map filterId l -> JsMap.get id (foldl uniqueStep m l) = JsMap.get id m.
Proof.
  induction l as [| d l IH]; intros m id Hnotin; cbn [foldl]; [reflexivity |].
  simpl in Hnotin. apply not_elem_of_cons in Hnotin as [Hne Hnotin].
  rewrite IH by assumption. apply uniqueStep_get_other. congruence.
Qed.

Lemma uniqueStep_unforced_get m d id :
  force d = false ->
  JsMap.get id (uniqueStep m d)
  = if filterId d =? id
    then match JsMap.get id m with
         | Some x => Some x
         | None => Some {| filterId := id; force := false |}
         end
    else JsMap.get id m.
Proof.
  intros Hf. unfold uniqueStep, JsMap.has. rewrite Hf, orb_false_r.
  destruct (Z.eqb_spec (filterId d) id) as [<- | Hne].
  - destruct (JsMap.get (filterId d) m) eqn:Hg; simpl; [exact Hg |].
    rewrite JsMap_get_set_eq. destruct d; simpl in *. subst. reflexivity.
  - destruct (JsMap.get (filterId d) m); simpl; [reflexivity |].
    apply JsMap_get_set_ne, Hne.
Qed.

Lemma foldl_uniqueStep_unforced l : forall m id,
  (forall d, d ∈ l -> force d = false) ->
  JsMap.get id (foldl uniqueStep m l)
  = match JsMap.get id m with
    | Some x => Some x
    | None => if bool_decide (id ∈ map filterId l)
              then Some {| filterId := id; force := false |}
              else None
    end.
Proof.
  induction l as [| d l IH]; intros m id Hall; cbn [foldl].
  - simpl. destruct (JsMap.get id m); reflexivity.
  - rewrite IH by (intros d' Hd'; apply Hall, list_elem_of_further, Hd').
    rewrite uniqueStep_unforced_get by (apply Hall, list_elem_of_here).
    simpl. destruct (Z.eqb_spec (filterId d) id) as [Heq | Hne].
    + rewrite (bool_decide_eq_true_2 (id ∈ filterId d :: map filterId l))
        by (rewrite Heq; apply list_elem_of_here).
      destruct (JsMap.get id m); reflexivity.
    + destruct (JsMap.get id m); [reflexivity |].
      destruct (bool_decide (id ∈ map filterId l)) eqn:Hin.
      * apply bool_decide_eq_true_1 in Hin.
        rewrite bool_decide_eq_true_2 by (apply list_elem_of_further, Hin). reflexivity.
      * apply bool_decide_eq_false_1 in Hin.
        rewrite bool_decide_eq_false_2; [reflexivity |].
        rewrite elem_of_cons. intros [-> | H]; contradiction.
Qed.

End MergeFacts.

Section MergedTasks.
Import FilterUpdate.
Context (E : Env) (vs : gmap Z FilterVersion) (updatePeriod : Z).

Let all := map (fun id => {| filterId := id; force := false |})
             (getInstalledAndEnabledFiltersIds E).

Lemma all_ids : map filterId all = getInstalledAndEnabledFiltersIds E.
Proof. unfold all. rewrite map_map. simpl. apply map_id. Qed.

Lemma diffPath_ids id :
  id ∈ map filterId (selectFiltersWithDiffPath vs all)
  <-> id ∈ getInstalledAndEnabledFiltersIds E
      /\ exists v, vs !! id = Some v /\ truthy (diffPath v) = true.
Proof.
  rewrite <- all_ids, <- selectFiltersWithDiffPath_elem.
  rewrite (list_elem_of_fmap filterId). split.
  - intros (d & -> & Hd).
    assert (Hf : force d = false).
    { unfold selectFiltersWithDiffPath in Hd.
      apply list_elem_of_fmap in Hd as (d0 & -> & _). reflexivity. }
    destruct d; simpl in *; subst. exact Hd.
  - intros Hd. eexists. split; [| exact Hd]. reflexivity.
Qed.

Lemma expired_ids id :
  id ∈ map filterId (selectExpiredFilters E vs all updatePeriod)
  <-> id ∈ getInstalledAndEnabledFiltersIds E
      /\ isExpired E vs updatePeriod {| filterId := id; force := true |} = true.
Proof. rewrite selectExpiredFilters_selected, all_ids. reflexivity. Qed.

Lemma merged_get id :
  JsMap.get id
    (foldl uniqueStep JsMap.empty
       (selectFiltersWithDiffPath vs all ++ selectExpiredFilters E vs all updatePeriod))
  = if bool_decide (id ∈ map filterId (selectExpiredFilters E vs all updatePeriod))
    then Some {| filterId := id; force := true |}
    else if bool_decide (id ∈ map filterId (selectFiltersWithDiffPath vs all))
         then Some {| filterId := id; force := false |}
         else None.
Proof.
  rewrite foldl_app. case_bool_decide as Hexp.
  - apply foldl_uniqueStep_forced; [| auto].
    intros d. apply selectExpiredFilters_force.
  - rewrite foldl_uniqueStep_get_other by assumption.
    rewrite foldl_uniqueStep_unforced; [reflexivity |].
    intros d Hd. unfold selectFiltersWithDiffPath in Hd.
    apply list_elem_of_fmap in Hd as (d0 & -> & _). reflexivity.
Qed.

(** X5. The tasks of a cycle that is not forced, one by one: a detail is in
    the list that [autoUpdateFilters] hands to [updateFilters] iff its
    filter is installed and enabled and either the filter is expired and
    the detail says [force = true], or the filter is not expired, has a
    non-empty [diffPath] and the detail says [force = false].  A filter
    that is neither expired nor has a patch feed gets no task. *)
Theorem merged_tasks_exactly d :
  d ∈ filterUpdateDetailsToUpdate E vs false updatePeriod
  <-> filterId d ∈ getInstalledAndEnabledFiltersIds E
      /\ if isExpired E vs updatePeriod d
         then force d = true
         else force d = false
              /\ exists v, vs !! filterId d = Some v /\ truthy (diffPath v) = true.
Proof.
  unfold filterUpdateDetailsToUpdate. simpl. fold all.
  rewrite keyed_values_get by apply foldl_uniqueStep_keyed, keyed_empty.
  rewrite merged_get.
  assert (Hexp : isExpired E vs updatePeriod {| filterId := filterId d; force := true |}
                 = isExpired E vs updatePeriod d)
    by (apply isExpired_filterId; reflexivity).
  case_bool_decide as Hin.
  - apply expired_ids in Hin as [Hin Hex]. rewrite Hexp in Hex. rewrite Hex.
    destruct d as [id f]. simpl in *. split.
    + intros [= <-]. auto.
    + intros [_ ->]. reflexivity.
  - rewrite expired_ids, Hexp in Hin.
    case_bool_decide as Hdiff.
    + apply diffPath_ids in Hdiff as [Hinst Hv].
      destruct (isExpired E vs updatePeriod d); [tauto |].
      destruct d as [id f]. simpl in *. split.
      * intros [= <-]. auto.
      * intros (_ & -> & _). reflexivity.
    + rewrite diffPath_ids in Hdiff. split; [discriminate |].
      intros [Hinst Hcase]. destruct (isExpired E vs updatePeriod d); tauto.
Qed.

(** X6. The merged list of a cycle that is not forced names no filter
    twice, however often the filter is listed as installed and in however
    many of the two selections it is. *)
Theorem merged_tasks_no_repeats :
  NoDup (map filterId (filterUpdateDetailsToUpdate E vs false updatePeriod)).
Proof.
  unfold filterUpdateDetailsToUpdate. simpl.
  assert (Hk : keyed (foldl uniqueStep JsMap.empty
                        (selectFiltersWithDiffPath vs all
                         ++ selectExpiredFilters E vs all updatePeriod)))
    by apply foldl_uniqueStep_keyed, keyed_empty.
  fold all. rewrite keyed_values_ids by exact Hk. apply Hk.
Qed.

End MergedTasks.

Section UpdateFiltersFacts.
Import FilterUpdate.
Context (E : Env).

Lemma shouldLoadMetadata_true tasks :
  shouldLoadMetadata E tasks = true
  <-> exists d, d ∈ tasks /\ force d = true /\ isCommonFilter E (filterId d) = true.
Proof.
  unfold shouldLoadMetadata. rewrite existsb_exists. split.
  - intros (d & Hin & Hd). apply andb_true_iff in Hd. exists d.
    rewrite list_elem_of_In. tauto.
  - intros (d & Hin & Hf & Hc). exists d. rewrite <- list_elem_of_In, Hf, Hc. auto.
Qed.

Lemma updateFilters_Some tasks w updated w1 :
  updateFilters E tasks w = Some (updated, w1) ->
  updated = omap (taskMetadata E) (completionOrder E tasks)
  /\ filterVersions w1
     = snd (foldl (updateTask E) ([], filterVersions w) (completionOrder E tasks))
  /\ engineUpdates w1 = engineUpdates w
  /\ metadataLoads w1
     = if shouldLoadMetadata E tasks then S (metadataLoads w) else metadataLoads w.
Proof.
  intros Hrun.
  destruct (shouldLoadMetadata E tasks && loadMetadataThrows E) eqn:Hload.
  - unfold updateFilters in Hrun. cbv zeta in Hrun. rewrite Hload in Hrun. discriminate.
  - destruct (updateFilters_settled E tasks w Hload) as (u & w0 & Hrun' & Hu & Hvs & Hen).
    rewrite Hrun in Hrun'. injection Hrun' as <- <-.
    split; [exact Hu |]. split; [exact Hvs |]. split; [exact Hen |].
    unfold updateFilters in Hrun. cbv zeta in Hrun. rewrite Hload in Hrun.
    destruct (foldl (updateTask E) _ _) as [u' vs'] in Hrun.
    injection Hrun as _ <-. destruct (shouldLoadMetadata E tasks); reflexivity.
Qed.

(** X7. [updateFilters] rejects in one case only: the metadata reload
    throws and is needed, that is, some task is forced and targets a common
    filter.  Without such a task it settles whatever the reload would do,
    and no failure of a task makes it reject. *)
Theorem updateFilters_rejects_iff tasks w :
  updateFilters E tasks w = None
  <-> loadMetadataThrows E = true
      /\ exists d, d ∈ tasks /\ force d = true /\ isCommonFilter E (filterId d) = true.
Proof.
  rewrite <- shouldLoadMetadata_true.
  destruct (shouldLoadMetadata E tasks && loadMetadataThrows E) eqn:Hload.
  - apply andb_true_iff in Hload as [Hs Ht].
    unfold updateFilters. cbv zeta. rewrite Hs, Ht. simpl. tauto.
  - destruct (updateFilters_settled E tasks w Hload) as (u & w0 & Hrun & _).
    rewrite Hrun. split; [discriminate |]. intros [Ht Hs].
    rewrite Hs, Ht in Hload. discriminate.
Qed.

(** X8. When [updateFilters] settles, the metadata was reloaded once if
    some task is forced and targets a common filter and not at all
    otherwise, so tasks for custom filters and tasks on the patch path alone
    never reload it; and [updateFilters] itself does not signal the
    engine. *)
Theorem updateFilters_loads_metadata_once tasks w updated w1 :
  updateFilters E tasks w = Some (updated, w1) ->
  ((exists d, d ∈ tasks /\ force d = true /\ isCommonFilter E (filterId d) = true) ->
     metadataLoads w1 = S (metadataLoads w))
  /\ ((forall d, d ∈ tasks -> force d = false \/ isCommonFilter E (filterId d) = false) ->
     metadataLoads w1 = metadataLoads w)
  /\ engineUpdates w1 = engineUpdates w.
Proof.
  intros Hrun. apply updateFilters_Some in Hrun as (_ & _ & Hen & Hml).
  split; [| split; [| exact Hen]].
  - intros Hex. apply shouldLoadMetadata_true in Hex. rewrite Hex in Hml. exact Hml.
  - intros Hall. destruct (shouldLoadMetadata E tasks) eqn:Hs; [| exact Hml].
    apply shouldLoadMetadata_true in Hs as (d & Hin & Hf & Hc).
    destruct (Hall d Hin); congruence.
Qed.

Lemma withVersions_same w : withVersions w (filterVersions w) = w.
Proof. destruct w. reflexivity. Qed.

Lemma updateFilters_no_tasks w :
  completionOrder E [] = [] -> updateFilters E [] w = Some ([], w).
Proof.
  intros Hnil. unfold updateFilters. simpl. rewrite Hnil. simpl.
  rewrite withVersions_same. reflexivity.
Qed.

(** X9. A cycle of [autoUpdateFilters] that returns signals the engine
    once when it returns at least one updated filter and not at all when it
    returns none. *)
Theorem autoUpdateFilters_engine_signal forceUpdate w updated w' :
  autoUpdateFilters E forceUpdate w = Some (updated, w') ->
  engineUpdates w'
  = match updated with
    | [] => engineUpdates w
    | _ :: _ => S (engineUpdates w)
    end.
Proof.
  unfold autoUpdateFilters.
  destruct (settingDisableFiltering E && negb forceUpdate);
    [intros [= <- <-]; reflexivity |].
  destruct ((settingFiltersUpdatePeriod E =? FiltersUpdateTime_Disabled E)
            && negb forceUpdate); [intros [= <- <-]; reflexivity |].
  cbv zeta.
  destruct (updateFilters E _ w) as [[u w1] |] eqn:Hrun; [| discriminate].
  apply updateFilters_Some in Hrun as (_ & _ & Hen & _).
  intros [= <- <-]. destruct u; simpl; rewrite Hen; reflexivity.
Qed.

(** X10. [checkForFiltersUpdates] never signals the engine, whatever it
    updated: that is left to its callers. *)
Theorem checkForFiltersUpdates_no_engine_signal filterIds w updated w' :
  checkForFiltersUpdates E filterIds w = Some (updated, w') ->
  engineUpdates w' = engineUpdates w.
Proof.
  unfold checkForFiltersUpdates. cbv zeta.
  destruct (updateFilters E _ w) as [[u w1] |] eqn:Hrun; [| discriminate].
  apply updateFilters_Some in Hrun as (_ & _ & Hen & _).
  intros [= <- <-]. exact Hen.
Qed.

Lemma List_filter_none {A} (f : A -> bool) (l : list A) :
  (forall x, x ∈ l -> f x = false) -> List.filter f l = [].
Proof.
  induction l as [| x l IH]; intros Hall; simpl; [reflexivity |].
  rewrite (Hall x) by apply list_elem_of_here.
  apply IH. intros y Hy. apply Hall, list_elem_of_further, Hy.
Qed.

(** X11. When every installed and enabled filter has a version record, is
    not expired and has no patch feed, a cycle of [autoUpdateFilters] that
    is not forced has no task: it returns the empty list and leaves the
    version records, the metadata and the engine as they were. *)
Theorem autoUpdateFilters_nothing_due w :
  completionOrder E [] = [] ->
  (forall id, id ∈ getInstalledAndEnabledFiltersIds E ->
     exists v, filterVersions w !! id = Some v
       /\ truthy (diffPath v) = false
       /\ isExpired E (filterVersions w) (settingFiltersUpdatePeriod E)
            {| filterId := id; force := false |} = false) ->
  filterUpdateDetailsToUpdate E (filterVersions w) false (settingFiltersUpdatePeriod E) = []
  /\ autoUpdateFilters E false w = Some ([], w).
Proof.
  intros Hnil Hquiet.
  assert (Htasks : filterUpdateDetailsToUpdate E (filterVersions w) false
                     (settingFiltersUpdatePeriod E) = []).
  { unfold filterUpdateDetailsToUpdate, selectFiltersWithDiffPath, selectExpiredFilters.
    simpl. rewrite !List_filter_none; [reflexivity | |].
    - intros d Hd. apply list_elem_of_fmap in Hd as (id & -> & Hid).
      destruct (Hquiet id Hid) as (v & _ & _ & Hex). exact Hex.
    - intros d Hd. apply list_elem_of_fmap in Hd as (id & -> & Hid).
      destruct (Hquiet id Hid) as (v & Hv & Ht & _). simpl. rewrite Hv. exact Ht. }
  split; [exact Htasks |].
  unfold autoUpdateFilters. cbv zeta. rewrite Htasks.
  rewrite updateFilters_no_tasks by exact Hnil. simpl.
  rewrite withVersions_same.
  destruct (settingDisableFiltering E); simpl; [reflexivity |].
  destruct (settingFiltersUpdatePeriod E =? FiltersUpdateTime_Disabled E); reflexivity.
Qed.

(** X12. When every filter handed to [checkForFiltersUpdates] is not
    custom and has been checked within the last five minutes, and so also
    when none is handed in, nothing is selected: it returns the empty list
    and changes nothing, no last check time either. *)
Theorem checkForFiltersUpdates_all_recent filterIds w :
  completionOrder E [] = [] ->
  (forall id, id ∈ filterIds ->
     isCustomFilter E id = false
     /\ exists v, filterVersions w !! id = Some v
          /\ now E - lastCheckTime v <= RECENTLY_CHECKED_FILTER_TIMEOUT_MS) ->
  checkForFiltersUpdates E filterIds w = Some ([], w).
Proof.
  intros Hnil Hrecent.
  assert (Hsel : selectFiltersIdsToUpdate E (filterVersions w) filterIds = []).
  { unfold selectFiltersIdsToUpdate. apply List_filter_none.
    intros id Hid. destruct (Hrecent id Hid) as (Hc & v & Hv & Ht).
    rewrite Hc, Hv. simpl. rewrite Z.gtb_ltb. apply Z.ltb_ge. exact Ht. }
  unfold checkForFiltersUpdates. cbv zeta. rewrite Hsel. simpl.
  rewrite updateFilters_no_tasks by exact Hnil. simpl.
  rewrite withVersions_same. reflexivity.
Qed.

End UpdateFiltersFacts.

Section UpdateFiltersScenario.
Import FilterUpdate Later Scenario.

Local Abbreviation E := (Scenario.env false (-1)).

Lemma selectExpiredFilters_missing_record_witness :
  versions !! 7 = None
  /\ {| filterId := 7; force := true |}
       ∈ selectExpiredFilters E versions [ {| filterId := 7; force := false |} ] 86400000.
Proof.
  assert (Hnone : versions !! 7 = None) by (vm_compute; reflexivity).
  split; [exact Hnone |].
  apply (selectExpiredFilters_missing_record E versions _ 86400000 7 Hnone).
  simpl. in_list.
Defined.

Lemma selectExpiredFilters_stays_expired_witness :
  {| filterId := 1; force := true |}
    ∈ selectExpiredFilters (atTime E (clock + 1)) versions
        [ {| filterId := 1; force := false |}; {| filterId := 2; force := false |} ] (-1).
Proof.
  apply (selectExpiredFilters_stays_expired E versions).
  - vm_compute. discriminate.
  - vm_compute. in_list.
Defined.

Lemma selectFiltersIdsToUpdate_stays_selected_witness :
  4 ∈ selectFiltersIdsToUpdate (atTime E (clock + 60000)) versions [3; 4].
Proof.
  apply (selectFiltersIdsToUpdate_stays_selected E versions).
  - vm_compute. discriminate.
  - vm_compute. in_list.
Defined.

Lemma updateFilters_loads_metadata_once_witness :
  exists updated w1,
    updateFilters E (map (fun id => {| filterId := id; force := true |}) [1; 2; 3]) world
      = Some (updated, w1)
    /\ metadataLoads w1 = 1%nat
    /\ engineUpdates w1 = 0%nat.
Proof.
  destruct (updateFilters E (map (fun id => {| filterId := id; force := true |}) [1; 2; 3])
              world) as [[updated w1] |] eqn:Hrun.
  - exists updated, w1. split; [reflexivity |].
    destruct (updateFilters_loads_metadata_once E _ _ _ _ Hrun) as (Hload & _ & Hen).
    split; [| exact Hen]. apply Hload.
    exists {| filterId := 1; force := true |}. split; [simpl; in_list |].
    split; reflexivity.
  - vm_compute in Hrun. discriminate.
Defined.

Lemma autoUpdateFilters_engine_signal_witness :
  exists updated w',
    autoUpdateFilters E true world = Some (updated, w')
    /\ updated = [fresh 3; fresh 1]
    /\ engineUpdates w' = 1%nat.
Proof.
  destruct (autoUpdateFilters E true world) as [[updated w'] |] eqn:Hrun.
  - exists updated, w'. split; [reflexivity |].
    pose proof (autoUpdateFilters_engine_signal E true world updated w' Hrun) as Hen.
    assert (Hupd : updated = [fresh 3; fresh 1]).
    { vm_compute in Hrun. injection Hrun as <- _. reflexivity. }
    split; [exact Hupd |]. rewrite Hupd in Hen. exact Hen.
  - vm_compute in Hrun. discriminate.
Defined.

Lemma checkForFiltersUpdates_no_engine_signal_witness :
  exists updated w',
    checkForFiltersUpdates E [3; 4] world = Some (updated, w')
    /\ updated = [fresh 4]
    /\ engineUpdates w' = 0%nat.
Proof.
  destruct (checkForFiltersUpdates E [3; 4] world) as [[updated w'] |] eqn:Hrun.
  - exists updated, w'. split; [reflexivity |].
    pose proof (checkForFiltersUpdates_no_engine_signal E _ world updated w' Hrun) as Hen.
    split; [| exact Hen]. vm_compute in Hrun. injection Hrun as <- _. reflexivity.
  - vm_compute in Hrun. discriminate.
Defined.

Lemma autoUpdateFilters_nothing_due_witness :
  autoUpdateFilters Quiet.env false world = Some ([], world).
Proof.
  apply (autoUpdateFilters_nothing_due Quiet.env world).
  - reflexivity.
  - intros id Hid. apply list_elem_of_In in Hid. simpl in Hid.
    destruct Hid as [<- | [<- | []]].
    + exists (record (clock - 3500 * 1000) None).
      split; [vm_compute; reflexivity |]. split; [reflexivity | vm_compute; reflexivity].
    + exists (record (clock - 4 * 60 * 1000) None).
      split; [vm_compute; reflexivity |]. split; [reflexivity | vm_compute; reflexivity].
Defined.

Lemma checkForFiltersUpdates_all_recent_witness :
  checkForFiltersUpdates E [3; 3] world = Some ([], world).
Proof.
  apply (checkForFiltersUpdates_all_recent E [3; 3] world).
  - reflexivity.
  - intros id Hid. apply list_elem_of_In in Hid. simpl in Hid.
    destruct Hid as [<- | [<- | []]].
    + split; [reflexivity |]. exists (record (clock - 4 * 60 * 1000) None).
      split; [vm_compute; reflexivity | vm_compute; discriminate].
    + split; [reflexivity |]. exists (record (clock - 4 * 60 * 1000) None).
      split; [vm_compute; reflexivity | vm_compute; discriminate].
Defined.

End UpdateFiltersScenario.

(** * Further properties of the consent classes *)

Section ConsentLookup.
Import ConsentStorage.

Lemma JsSet_ofArray_elem xs x : x ∈ JsSet.ofArray xs <-> x ∈ xs.
Proof.
  unfold JsSet.ofArray. rewrite JsSet_addAll_elem. unfold JsSet.empty.
  split; [intros [H | H]; [apply elem_of_nil in H; contradiction | exact H] | auto].
Qed.

Lemma JsSet_addAll_app s xs ys :
  JsSet.addAll s (xs ++ ys) = JsSet.addAll (JsSet.addAll s xs) ys.
Proof. unfold JsSet.addAll. apply foldl_app. Qed.

Lemma lazy_isConsentedFilter_materialized id set st :
  ConsentLazy.isConsentedFilter id
    {| ConsentLazy.consentedFilterIds := Some set; ConsentLazy.storage := st |}
  = (JsSet.has id set,
     {| ConsentLazy.consentedFilterIds := Some set; ConsentLazy.storage := st |}).
Proof. reflexivity. Qed.

Lemma lazy_isConsentedFilter_after_add id filterIds a :
  ConsentLazy.isConsentedFilter id (ConsentLazy.addFilterIds filterIds a)
  = (JsSet.has id (JsSet.addAll (ConsentLazy.consented a) filterIds),
     ConsentLazy.addFilterIds filterIds a).
Proof.
  destruct (lazy_addFilterIds_spec filterIds a) as (Hset & _).
  destruct (ConsentLazy.addFilterIds filterIds a) as [set st]. simpl in Hset. subst set.
  apply lazy_isConsentedFilter_materialized.
Qed.

(** X13. What was added is found: in both consent classes, after
    [addFilterIds(filterIds)] the answer of [isConsentedFilter(id)] is
    [true] exactly for the ids of [filterIds] and those consented before;
    in the class whose set starts as [null] the question then reads and
    changes nothing. *)
Theorem isConsentedFilter_after_addFilterIds (filterIds : list Z) (id : Z) :
  (forall a : ConsentLazy.t,
     (fst (ConsentLazy.isConsentedFilter id (ConsentLazy.addFilterIds filterIds a)) = true
      <-> id ∈ ConsentLazy.consented a \/ id ∈ filterIds)
     /\ snd (ConsentLazy.isConsentedFilter id (ConsentLazy.addFilterIds filterIds a))
        = ConsentLazy.addFilterIds filterIds a)
  /\ (forall a : ConsentEager.t,
     fst (ConsentEager.isConsentedFilter id (ConsentEager.addFilterIds filterIds a)) = true
     <-> id ∈ ConsentEager.consented a \/ id ∈ filterIds).
Proof.
  split.
  - intros a. rewrite lazy_isConsentedFilter_after_add. simpl.
    rewrite JsSet_has_true, JsSet_addAll_elem. auto.
  - intros a. destruct (eager_addFilterIds_spec filterIds a) as (Hset & _).
    unfold ConsentEager.isConsentedFilter. simpl.
    rewrite Hset, JsSet_has_true, JsSet_addAll_elem. reflexivity.
Qed.

Lemma lazy_isConsentedFilter_new id st :
  fst (ConsentLazy.isConsentedFilter id (ConsentLazy.create st))
  = JsSet.has id (JsSet.ofArray (parsed (stored st))).
Proof.
  unfold ConsentLazy.isConsentedFilter, ConsentLazy.create,
    ConsentLazy.restoreConsentedFilterIds, getFromStorage, read.
  simpl. destruct (stored st); reflexivity.
Qed.

(** X14. Consent outlives the object in the class whose set starts as
    [null]: a new object over the storage that [addFilterIds(filterIds)]
    left answers [true] exactly for the ids of [filterIds] and those
    consented before. *)
Theorem lazy_consent_survives_restart (filterIds : list Z) (id : Z) (a : ConsentLazy.t) :
  fst (ConsentLazy.isConsentedFilter id
         (ConsentLazy.create (ConsentLazy.storage (ConsentLazy.addFilterIds filterIds a))))
    = true
  <-> id ∈ ConsentLazy.consented a \/ id ∈ filterIds.
Proof.
  destruct (lazy_addFilterIds_spec filterIds a) as (_ & Hstored & _).
  rewrite lazy_isConsentedFilter_new, Hstored. simpl.
  rewrite JsSet_has_true, JsSet_ofArray_elem, JsSet_addAll_elem. reflexivity.
Qed.

(** X15. [reset] empties the storage and leaves the set in memory: an
    object of the class whose set starts as [null] that has materialized
    its set answers after [reset] as before it, and its next
    [addFilterIds] writes the ids from before the reset back to the
    storage; an object that has not materialized its set answers [false]
    for every id after [reset]. *)
Theorem lazy_reset_keeps_memory (set : JsSet.t) (st : ConsentStorage.t)
    (filterIds : list Z) (id : Z) :
  let a := {| ConsentLazy.consentedFilterIds := Some set; ConsentLazy.storage := st |} in
  stored (ConsentLazy.storage (ConsentLazy.reset a)) = JsonArray []
  /\ fst (ConsentLazy.isConsentedFilter id (ConsentLazy.reset a))
     = fst (ConsentLazy.isConsentedFilter id a)
  /\ stored (ConsentLazy.storage (ConsentLazy.addFilterIds filterIds (ConsentLazy.reset a)))
     = JsonArray (JsSet.addAll set filterIds)
  /\ fst (ConsentLazy.isConsentedFilter id (ConsentLazy.reset (ConsentLazy.create st)))
     = false.
Proof. repeat split; reflexivity. Qed.

End ConsentLookup.

Section ConsentMaterialize.
Import ConsentStorage ConsentNotions.

(** X16. The first access in the class whose set starts as [null]: when
    the storage holds no string or one that does not parse, the consent is
    empty, every id is answered [false], and the persisted value becomes
    the empty array; when it holds the text of an array, the ids of the
    array are the consent and the persisted value stays that array.
    Either way the storage is read once. *)
Theorem lazy_first_access (d : option (list Z)) (r : nat) (ids : list Z) (id : Z) :
  let unreadable p :=
    ConsentLazy.isConsentedFilter id
      (ConsentLazy.create {| stored := p; data := d; reads := r |})
    = (false,
       {| ConsentLazy.consentedFilterIds := Some [];
          ConsentLazy.storage :=
            {| stored := JsonArray []; data := Some []; reads := S r |} |}) in
  unreadable NotAString
  /\ unreadable BadString
  /\ snd (ConsentLazy.isConsentedFilter id
            (ConsentLazy.create {| stored := JsonArray ids; data := d; reads := r |}))
     = {| ConsentLazy.consentedFilterIds := Some (JsSet.ofArray ids);
          ConsentLazy.storage :=
            {| stored := JsonArray ids; data := Some ids; reads := S r |} |}
  /\ (fst (ConsentLazy.isConsentedFilter id
             (ConsentLazy.create {| stored := JsonArray ids; data := d; reads := r |}))
        = true
      <-> id ∈ ids).
Proof.
  split; [reflexivity |]. split; [reflexivity |]. split; [reflexivity |].
  rewrite lazy_isConsentedFilter_new. simpl.
  rewrite JsSet_has_true. apply JsSet_ofArray_elem.
Qed.

Lemma JsSet_ofArray_NoDup xs : NoDup (JsSet.ofArray xs).
Proof. apply JsSet_addAll_NoDup, NoDup_nil_2. Qed.

Lemma lazy_consented_NoDup a :
  (forall set, ConsentLazy.consentedFilterIds a = Some set -> NoDup set) ->
  NoDup (ConsentLazy.consented a).
Proof.
  unfold ConsentLazy.consented. intros Hset.
  destruct (ConsentLazy.consentedFilterIds a) as [set |]; [auto |].
  apply JsSet_ofArray_NoDup.
Qed.

Lemma lazy_call_materialized a c :
  (forall set, ConsentLazy.consentedFilterIds a = Some set -> NoDup set) ->
  materialized (ConsentLazy.call a c).
Proof.
  intros Hset. destruct c as [filterIds | id]; simpl.
  - destruct (lazy_addFilterIds_spec filterIds a) as (Hs & _).
    eexists. split; [exact Hs |]. apply JsSet_addAll_NoDup, lazy_consented_NoDup, Hset.
  - unfold ConsentLazy.isConsentedFilter.
    destruct (ConsentLazy.consentedFilterIds a) as [set |] eqn:Hs; simpl.
    + exists set. auto.
    + unfold ConsentLazy.restoreConsentedFilterIds.
      destruct (getFromStorage (ConsentLazy.storage a)) as [fromStorage s1]. simpl.
      eexists. split; [reflexivity |]. apply JsSet_ofArray_NoDup.
Qed.

Lemma lazy_calls_materialized cs : forall a,
  materialized a -> materialized (foldl ConsentLazy.call a cs).
Proof.
  induction cs as [| c cs IH]; intros a Ha; cbn [foldl]; [exact Ha |].
  apply IH, lazy_call_materialized.
  destruct Ha as (set & Hs & Hnd). intros set' Hs'. congruence.
Qed.

(** X17. In the class whose set starts as [null], after one call or more
    on a new object the set in memory is materialized and holds no id
    twice, and what [addFilterIds] then persists holds no id twice either,
    also when the array found in the storage did. *)
Theorem lazy_set_never_repeats (s : ConsentStorage.t) (c : ConsentCall)
    (cs : list ConsentCall) (filterIds : list Z) :
  (exists set,
     ConsentLazy.consentedFilterIds (foldl ConsentLazy.call (ConsentLazy.create s) (c :: cs))
       = Some set
     /\ NoDup set)
  /\ (exists persisted,
     stored (ConsentLazy.storage
               (ConsentLazy.addFilterIds filterIds
                  (foldl ConsentLazy.call (ConsentLazy.create s) cs)))
       = JsonArray persisted
     /\ NoDup persisted).
Proof.
  split.
  - cbn [foldl]. apply lazy_calls_materialized, lazy_call_materialized.
    simpl. discriminate.
  - destruct (lazy_addFilterIds_spec filterIds
                (foldl ConsentLazy.call (ConsentLazy.create s) cs)) as (_ & Hstored & _).
    eexists. split; [exact Hstored |].
    apply JsSet_addAll_NoDup, lazy_consented_NoDup.
    destruct cs as [| c' cs]; [simpl; discriminate |].
    cbn [foldl].
    destruct (lazy_calls_materialized cs (ConsentLazy.call (ConsentLazy.create s) c'))
      as (set & Hs & Hnd).
    { apply lazy_call_materialized. simpl. discriminate. }
    intros set' Hs'. congruence.
Qed.

(** X18. In the class whose set starts as [null], two calls of
    [addFilterIds] in a row leave the object and the storage exactly as one
    call with the two lists concatenated does. *)
Theorem lazy_addFilterIds_composes (xs ys : list Z) (a : ConsentLazy.t) :
  ConsentLazy.addFilterIds ys (ConsentLazy.addFilterIds xs a)
  = ConsentLazy.addFilterIds (xs ++ ys) a.
Proof.
  destruct a as [[set |] st]; unfold ConsentLazy.addFilterIds; simpl.
  - rewrite JsSet_addAll_app. reflexivity.
  - unfold ConsentLazy.restoreConsentedFilterIds. simpl.
    destruct (getFromStorage st) as [fromStorage s1]. simpl.
    rewrite JsSet_addAll_app. reflexivity.
Qed.

End ConsentMaterialize.

Section ConsentStorageCompose.
Import ConsentStorage.

(** X19. [AnnoyancesConsentStorage.addFilterIds] called twice in a row does
    what one call with the two lists concatenated does, the error of a
    storage that is not initialized included; so a second call with the
    same ids changes nothing. *)
Theorem storage_addFilterIds_composes (xs ys : list Z) (s : ConsentStorage.t) :
  match addFilterIds xs s with
  | inl e => inl e
  | inr s1 => addFilterIds ys s1
  end = addFilterIds (xs ++ ys) s
  /\ match addFilterIds xs s with
     | inl e => addFilterIds (xs ++ xs) s = inl e
     | inr s1 => addFilterIds xs s1 = inr s1
     end.
Proof.
  destruct s as [p [d |] r]; unfold addFilterIds; simpl; [| split; reflexivity].
  rewrite !foldl_pushIfMissing. split.
  - rewrite JsSet_addAll_app. reflexivity.
  - rewrite JsSet_addAll_again. reflexivity.
Qed.

End ConsentStorageCompose.

Section ConsentClassesAgree.
Import ConsentStorage ConsentNotions.

Lemma agree_first s filterIds :
  agree (ConsentEager.addFilterIds filterIds (ConsentEager.create s))
        (ConsentLazy.addFilterIds filterIds (ConsentLazy.create s)).
Proof.
  destruct (eager_addFilterIds_spec filterIds (ConsentEager.create s)) as (He & Hes & _).
  destruct (lazy_addFilterIds_spec filterIds (ConsentLazy.create s)) as (Hl & Hls & _).
  unfold agree. rewrite Hl, Hes, Hls, He. auto.
Qed.

Lemma agree_call e l c :
  agree e l -> agree (ConsentEager.call e c) (ConsentLazy.call l c).
Proof.
  intros (Hset & Hes & Hls). destruct c as [filterIds | id]; simpl.
  - destruct (eager_addFilterIds_spec filterIds e) as (He & Hes' & _).
    destruct (lazy_addFilterIds_spec filterIds l) as (Hl & Hls' & _).
    assert (Hce : ConsentEager.consented e = ConsentEager.consentedFilterIds e).
    { unfold ConsentEager.consented, JsSet.size. rewrite Hes.
      destruct (ConsentEager.consentedFilterIds e); reflexivity. }
    assert (Hcl : ConsentLazy.consented l = ConsentEager.consentedFilterIds e)
      by (unfold ConsentLazy.consented; rewrite Hset; reflexivity).
    unfold agree. rewrite Hl, Hes', Hls', He, Hce, Hcl. auto.
  - unfold ConsentLazy.isConsentedFilter. rewrite Hset. simpl.
    unfold agree. auto.
Qed.

Lemma agree_calls cs : forall e l,
  agree e l -> agree (foldl ConsentEager.call e cs) (foldl ConsentLazy.call l cs).
Proof.
  induction cs as [| c cs IH]; intros e l H; cbn [foldl]; [exact H |].
  apply IH, agree_call, H.
Qed.

(** X20. From the first [addFilterIds] on, the two consent classes cannot
    be told apart by their answers or by what they persist: over the same
    storage, after [addFilterIds] and any further calls they hold the same
    set, have persisted the same array, and answer [isConsentedFilter]
    alike. *)
Theorem consent_classes_agree_after_add (s : ConsentStorage.t) (filterIds : list Z)
    (cs : list ConsentCall) (id : Z) :
  let e := foldl ConsentEager.call (ConsentEager.create s)
             (CallAddFilterIds filterIds :: cs) in
  let l := foldl ConsentLazy.call (ConsentLazy.create s)
             (CallAddFilterIds filterIds :: cs) in
  ConsentLazy.consentedFilterIds l = Some (ConsentEager.consentedFilterIds e)
  /\ stored (ConsentEager.storage e) = stored (ConsentLazy.storage l)
  /\ fst (ConsentEager.isConsentedFilter id e) = fst (ConsentLazy.isConsentedFilter id l).
Proof.
  intros e l.
  assert (H : agree e l) by (unfold e, l; cbn [foldl]; apply agree_calls, agree_first).
  destruct H as (Hset & Hes & Hls). split; [exact Hset |].
  split; [rewrite Hes, Hls; reflexivity |].
  destruct l as [lset lst]. simpl in Hset. subst lset. reflexivity.
Qed.

End ConsentClassesAgree.

(** * Properties of the patch update service *)

Section PatchTask.
Import FilterUpdate PatchUpdate.
Context (C : Collaborators).

(** Every way through [patchWith]. *)
Ltac patch_cases :=
  unfold patchWith;
  repeat match goal with
         | |- context [match ?x with _ => _ end] => destruct x eqn:?
         end;
  simpl.

Lemma patchWith_others filterId url filterContent s k :
  k <> filterId ->
  filters (patchWith C filterId url filterContent s) !! k = filters s !! k
  /\ rawFilters (patchWith C filterId url filterContent s) !! k = rawFilters s !! k
  /\ versions (patchWith C filterId url filterContent s) !! k = versions s !! k.
Proof.
  intros Hne. patch_cases; rewrite ?lookup_insert_ne by congruence; auto.
Qed.

Lemma patchWith_keeps_key filterId url filterContent s :
  is_Some (filters s !! filterId) ->
  is_Some (filters (patchWith C filterId url filterContent s) !! filterId).
Proof.
  intros Hsome. patch_cases; rewrite ?lookup_insert_eq; eauto.
Qed.

Lemma patchWith_outcome filterId url filterContent s :
  let s' := patchWith C filterId url filterContent s in
  (logged s' = S (logged s)
   /\ versions s' = versions s
   /\ debounced s' = debounced s)
  \/ (logged s' = logged s
      /\ debounced s' = S (debounced s)
      /\ exists lines h,
           filters s' !! filterId = Some lines
           /\ parseFilterDataFromHeader C lines = Some h
           /\ versions s' = <[filterId := versionOf C h]> (versions s)).
Proof.
  patch_cases; try (left; auto; fail).
  right. split; [reflexivity |]. split; [reflexivity |].
  eexists _, _. rewrite lookup_insert_eq. split; [reflexivity |]. split; [eassumption |].
  reflexivity.
Qed.

Lemma tryToApplyPatch_Some filterId s s' :
  tryToApplyPatch C filterId s = Some s' ->
  s' = logError s
  \/ exists url filterContent,
       filters s !! filterId = Some filterContent
       /\ s' = patchWith C filterId url filterContent s.
Proof.
  unfold tryToApplyPatch.
  destruct (filters s !! filterId) as [filterContent |]; [| discriminate].
  destruct (isCustom C filterId).
  - destruct (customUrl C filterId) as [url |]; intros [= <-]; eauto.
  - intros [= <-]. eauto.
Qed.

Lemma tryToApplyPatch_rejects filterId s :
  tryToApplyPatch C filterId s = None <-> filters s !! filterId = None.
Proof.
  unfold tryToApplyPatch.
  destruct (filters s !! filterId) as [filterContent |]; [| tauto].
  destruct (isCustom C filterId); [destruct (customUrl C filterId) |];
    split; discriminate.
Qed.

Lemma tryToApplyPatch_touches_own_filter_aux filterId s s' k :
  tryToApplyPatch C filterId s = Some s' ->
  k <> filterId ->
  filters s' !! k = filters s !! k
  /\ rawFilters s' !! k = rawFilters s !! k
  /\ versions s' !! k = versions s !! k.
Proof.
  intros Hrun Hne.
  apply tryToApplyPatch_Some in Hrun as [-> | (url & filterContent & _ & ->)].
  - auto.
  - apply patchWith_others, Hne.
Qed.

(** X21. A task of the patch update service touches its own filter only:
    when [tryToApplyPatch(filterId)] resolves, the content, the raw content
    and the version record of every other filter are what they were. *)
Theorem tryToApplyPatch_touches_own_filter filterId s s' k :
  tryToApplyPatch C filterId s = Some s' ->
  k <> filterId ->
  filters s' !! k = filters s !! k
  /\ rawFilters s' !! k = rawFilters s !! k
  /\ versions s' !! k = versions s !! k.
Proof.
  apply tryToApplyPatch_touches_own_filter_aux.
Qed.

(** X22. A task of the patch update service that resolves ends in one of
    two ways.  Either something failed: the error is logged, no version
    record is written and the engine is not signalled.  Or it went through:
    nothing is logged, the engine is signalled once, and the version record
    of the filter is the one read from the header of the content now
    stored: its [version], [Number(expires)] and the time of
    [timeUpdated], with [lastCheckTime = now] and without a [diffPath]. *)
Theorem tryToApplyPatch_outcome filterId s s' :
  tryToApplyPatch C filterId s = Some s' ->
  (logged s' = S (logged s)
   /\ versions s' = versions s
   /\ debounced s' = debounced s)
  \/ (logged s' = logged s
      /\ debounced s' = S (debounced s)
      /\ exists lines h v,
           filters s' !! filterId = Some lines
           /\ parseFilterDataFromHeader C lines = Some h
           /\ versions s' !! filterId = Some v
           /\ version v = headerVersion h
           /\ expires v = toNumber C (headerExpires h)
           /\ lastUpdateTime v = dateGetTime C (headerTimeUpdated h)
           /\ lastCheckTime v = dateNow C
           /\ diffPath v = None
           /\ forall k, k <> filterId -> versions s' !! k = versions s !! k).
Proof.
  intros Hrun.
  apply tryToApplyPatch_Some in Hrun as [-> | (url & filterContent & _ & ->)].
  - left. auto.
  - destruct (patchWith_outcome filterId url filterContent s)
      as [Hfail | (Hlog & Hdeb & lines & h & Hlines & Hparse & Hvs)]; [left; exact Hfail |].
    right. split; [exact Hlog |]. split; [exact Hdeb |].
    exists lines, h, (versionOf C h). rewrite Hvs, lookup_insert_eq.
    repeat split; try assumption.
    intros k Hk. apply lookup_insert_ne. congruence.
Qed.

(** X23. The writes of a task are not all or nothing.  For a custom
    filter with metadata as for any other filter, when the patch is applied
    and the directives are resolved but the resulting list has no header
    that can be parsed, the task resolves with the raw content and the
    content of the filter replaced, the error logged, and the version
    record and the engine left as they were. *)
Theorem tryToApplyPatch_header_missing filterId s filterContent url updatedFilter resolved :
  filters s !! filterId = Some filterContent ->
  urlFor C filterId = Some url ->
  applyPatch C url (joinLines filterContent) = Some updatedFilter ->
  rawSetRejects C filterId = false ->
  resolveDirectives C url (splitLines updatedFilter) = Some resolved ->
  filtersSetRejects C filterId = false ->
  parseFilterDataFromHeader C resolved = None ->
  exists s',
    tryToApplyPatch C filterId s = Some s'
    /\ rawFilters s' !! filterId = Some (splitLines updatedFilter)
    /\ filters s' !! filterId = Some resolved
    /\ versions s' = versions s
    /\ debounced s' = debounced s
    /\ logged s' = S (logged s).
Proof.
  intros Hget Hurl Hpatch Hraw Hres Hset Hparse.
  assert (Hrun : tryToApplyPatch C filterId s
                 = Some (patchWith C filterId url filterContent s)).
  { unfold tryToApplyPatch, urlFor in *. rewrite Hget.
    destruct (isCustom C filterId).
    - rewrite Hurl. reflexivity.
    - injection Hurl as <-. reflexivity. }
  eexists. split; [exact Hrun |].
  unfold patchWith. rewrite Hpatch, Hraw. cbv zeta. rewrite Hres, Hset. cbv zeta.
  rewrite Hparse. simpl. rewrite !lookup_insert_eq. auto.
Qed.

End PatchTask.

Section PatchCycle.
Import FilterUpdate PatchUpdate.
Context (C : Collaborators).

Lemma tryToApplyPatch_keeps_keys filterId s s' k :
  tryToApplyPatch C filterId s = Some s' ->
  is_Some (filters s' !! k) <-> is_Some (filters s !! k).
Proof.
  intros Hrun.
  apply tryToApplyPatch_Some in Hrun as [-> | (url & filterContent & Hget & ->)];
    [reflexivity |].
  destruct (decide (k = filterId)) as [-> | Hne].
  - split; intros _; [rewrite Hget; eauto |].
    apply patchWith_keeps_key. rewrite Hget. eauto.
  - destruct (patchWith_others C filterId url filterContent s k Hne) as (-> & _).
    reflexivity.
Qed.

Lemma update_unfold s :
  update C s = foldl (runTask C) (true, s) (installedAndEnabledFiltersIds C).
Proof.
  unfold update. generalize (true, s).
  induction (installedAndEnabledFiltersIds C) as [| id ids IH]; intros acc;
    cbn [foldl]; [reflexivity |].
  rewrite IH. destruct acc. reflexivity.
Qed.

Lemma foldl_runTask ids : forall b s,
  (fst (foldl (runTask C) (b, s) ids) = true
   <-> b = true /\ forall id, id ∈ ids -> is_Some (filters s !! id))
  /\ (forall k, is_Some (filters (snd (foldl (runTask C) (b, s) ids)) !! k)
                <-> is_Some (filters s !! k))
  /\ (forall k, k ∉ ids ->
        filters (snd (foldl (runTask C) (b, s) ids)) !! k = filters s !! k
        /\ rawFilters (snd (foldl (runTask C) (b, s) ids)) !! k = rawFilters s !! k
        /\ versions (snd (foldl (runTask C) (b, s) ids)) !! k = versions s !! k).
Proof.
  induction ids as [| id ids IH]; intros b s; cbn [foldl].
  - simpl. split; [| split; [reflexivity | auto]].
    split; [intros ->; split; [reflexivity |] | tauto].
    intros id Hid. apply elem_of_nil in Hid. contradiction.
  - unfold runTask at 2 4 6 8 10.
    destruct (tryToApplyPatch C id s) as [s1 |] eqn:Hrun.
    + destruct (IH b s1) as (Hres & Hkeys & Hothers).
      pose proof (fun k => tryToApplyPatch_keeps_keys id s s1 k Hrun) as Hk1.
      split; [| split].
      * rewrite Hres. split.
        -- intros [-> Hall]. split; [reflexivity |].
           intros i Hi. apply elem_of_cons in Hi as [-> | Hi].
           ++ apply not_eq_None_Some. intros Hnone.
              apply (tryToApplyPatch_rejects C id s) in Hnone. congruence.
           ++ apply Hk1, Hall, Hi.
        -- intros [-> Hall]. split; [reflexivity |].
           intros i Hi. apply Hk1, Hall, list_elem_of_further, Hi.
      * intros k. rewrite Hkeys. apply Hk1.
      * intros k Hk. apply not_elem_of_cons in Hk as [Hne Hk].
        destruct (Hothers k Hk) as (-> & -> & ->).
        eapply tryToApplyPatch_touches_own_filter_aux; eassumption.
    + destruct (IH false s) as (Hres & Hkeys & Hothers).
      split; [| split].
      * rewrite Hres. split; [intros [[=] _] |].
        intros [_ Hall]. apply tryToApplyPatch_rejects in Hrun.
        destruct (Hall id (list_elem_of_here _ _)) as [c Hc]. congruence.
      * exact Hkeys.
      * intros k Hk. apply not_elem_of_cons in Hk as [_ Hk]. apply Hothers, Hk.
Qed.

End PatchCycle.

Section PatchUpdateRun.
Import FilterUpdate PatchUpdate.

(** X24. [update] resolves exactly when the stored content of every
    installed and enabled filter can be read: no failure of a patch, of
    the directives, of a write or of the header makes it reject.  And it
    leaves the content, the raw content and the version record of every
    filter that is not installed and enabled as they were. *)
Theorem update_resolves_iff (C : Collaborators) (s : Stores) :
  (fst (update C s) = true
   <-> forall id, id ∈ installedAndEnabledFiltersIds C -> is_Some (filters s !! id))
  /\ forall k, k ∉ installedAndEnabledFiltersIds C ->
       filters (snd (update C s)) !! k = filters s !! k
       /\ rawFilters (snd (update C s)) !! k = rawFilters s !! k
       /\ versions (snd (update C s)) !! k = versions s !! k.
Proof.
  rewrite update_unfold.
  destruct (foldl_runTask C (installedAndEnabledFiltersIds C) true s)
    as (Hres & _ & Hothers).
  split; [| exact Hothers]. rewrite Hres. tauto.
Qed.

Lemma append_empty_r (s : string) : s +:+ EmptyString = s.
Proof.
  induction s as [| c s IH]; [reflexivity |].
  change (String c s +:+ EmptyString) with (String c (s +:+ EmptyString)).
  rewrite IH. reflexivity.
Qed.

Lemma append_one_assoc (a : string) (c : Ascii.ascii) (b : string) :
  (a +:+ String c EmptyString) +:+ b = a +:+ String c b.
Proof.
  induction a as [| c' a IH]; [reflexivity |].
  change ((String c' a +:+ String c EmptyString) +:+ b)
    with (String c' ((a +:+ String c EmptyString) +:+ b)).
  rewrite IH. reflexivity.
Qed.

Lemma splitFrom_line (line : string) : forall acc rest,
  noLineFeed line = true ->
  splitFrom acc (line +:+ rest) = splitFrom (acc +:+ line) rest.
Proof.
  induction line as [| c line IH]; intros acc rest Hno.
  - rewrite append_empty_r. reflexivity.
  - simpl in Hno. apply andb_true_iff in Hno as [Hc Hno].
    apply negb_true_iff in Hc.
    change (String c line +:+ rest) with (String c (line +:+ rest)).
    cbn [splitFrom]. rewrite Hc, IH by exact Hno.
    rewrite append_one_assoc. reflexivity.
Qed.

Lemma dropCR_id (line : string) : endsWithCR line = false -> dropCR line = line.
Proof.
  induction line as [| c line IH]; simpl; [reflexivity |].
  destruct line as [| c' line'].
  - intros ->. reflexivity.
  - intros H. rewrite IH by exact H. reflexivity.
Qed.

(** X25. What [tryToApplyPatch] sends to [applyPatch] can be cut back into
    the lines it was made of: for a list of at least one line, where no
    line holds a line feed or ends with a carriage return, joining the
    lines with a line feed and splitting the text at [/\r?\n/] gives the
    lines back. *)
Theorem splitLines_joinLines (lines : list string) :
  lines <> [] ->
  Forall (fun line => noLineFeed line = true /\ endsWithCR line = false) lines ->
  splitLines (joinLines lines) = lines.
Proof.
  unfold splitLines, joinLines.
  induction lines as [| line rest IH]; intros Hne Hall; [contradiction |].
  apply Forall_cons in Hall as [[Hno Hcr] Hall].
  destruct rest as [| line2 rest].
  - simpl. rewrite <- (append_empty_r line) at 1.
    rewrite splitFrom_line by exact Hno. reflexivity.
  - change (String.concat (String LF EmptyString) (line :: line2 :: rest))
      with (line +:+ String LF (String.concat (String LF EmptyString) (line2 :: rest))).
    rewrite splitFrom_line by exact Hno.
    change (splitFrom (EmptyString +:+ line)
              (String LF (String.concat (String LF EmptyString) (line2 :: rest))))
      with (dropCR line
            :: splitFrom EmptyString (String.concat (String LF EmptyString) (line2 :: rest))).
    rewrite dropCR_id by exact Hcr. f_equal. apply IH; [discriminate | exact Hall].
Qed.

End PatchUpdateRun.

Section PatchUpdateScenario.
Import FilterUpdate PatchUpdate PatchScenario.

Example tryToApplyPatch_no_metadata :
  tryToApplyPatch collaborators 1000 stores = Some (logError stores).
Proof. reflexivity. Qed.

Example splitLines_example :
  splitLines ("a" +:+ String CR (String LF ("b" +:+ String CR (String CR
                (String LF (String LF "c"))))))
  = ["a"; "b" +:+ String CR EmptyString; EmptyString; "c"].
Proof. reflexivity. Qed.

Lemma tryToApplyPatch_touches_own_filter_witness :
  exists s',
    tryToApplyPatch collaborators 1 stores = Some s'
    /\ filters s' !! 2 = Some ["||tracker.example^"]
    /\ rawFilters s' !! 2 = None
    /\ versions s' !! 2 = None.
Proof.
  destruct (tryToApplyPatch collaborators 1 stores) as [s' |] eqn:Hrun.
  - exists s'. split; [reflexivity |].
    destruct (tryToApplyPatch_touches_own_filter collaborators 1 stores s' 2 Hrun)
      as (-> & -> & ->); [discriminate |].
    repeat split; vm_compute; reflexivity.
  - vm_compute in Hrun. discriminate.
Defined.

Lemma tryToApplyPatch_outcome_witness :
  exists s',
    tryToApplyPatch collaborators 1 stores = Some s'
    /\ debounced s' = 1%nat
    /\ logged s' = 0%nat.
Proof.
  destruct (tryToApplyPatch collaborators 1 stores) as [s' |] eqn:Hrun.
  - exists s'. split; [reflexivity |].
    destruct (tryToApplyPatch_outcome collaborators 1 stores s' Hrun)
      as [(Hlog & _ & _) | (Hlog & Hdeb & _)].
    + exfalso. vm_compute in Hrun. injection Hrun as <-. simpl in Hlog. discriminate.
    + split; [exact Hdeb | exact Hlog].
  - vm_compute in Hrun. discriminate.
Defined.

Lemma tryToApplyPatch_header_missing_witness :
  exists s',
    tryToApplyPatch collaborators 2 stores = Some s'
    /\ rawFilters s' !! 2 = Some ["||tracker.example^"; "! patched"]
    /\ filters s' !! 2 = Some ["||tracker.example^"; "! patched"]
    /\ versions s' = versions stores
    /\ debounced s' = 0%nat
    /\ logged s' = 1%nat.
Proof.
  apply (tryToApplyPatch_header_missing collaborators 2 stores
           ["||tracker.example^"]
           "https://filters.example.org/list.txt"
           ("||tracker.example^" +:+ String LF "! patched")
           ["||tracker.example^"; "! patched"]);
    reflexivity.
Defined.

Lemma splitLines_joinLines_witness :
  splitLines (joinLines ["! Version: 2"; "||ads.example^"])
  = ["! Version: 2"; "||ads.example^"].
Proof.
  apply splitLines_joinLines; [discriminate |].
  repeat constructor.
Defined.

Example update_example :
  fst (update collaborators stores) = true
  /\ debounced (snd (update collaborators stores)) = 1%nat
  /\ logged (snd (update collaborators stores)) = 2%nat.
Proof. repeat split; vm_compute; reflexivity. Qed.

End PatchUpdateScenario.
